(** * Webhook tester plugin (marketplace/webhook-tester/plugin.py)

    A shallow embedding of the capture server, the mock server, the request
    sender and the capture exporter of the plugin, and the properties of the
    design document checked against it.

    Conventions.
    - A Python [str] is the list of its code points ([pystr]); a Python
      [bytes] is a list of [byte].
    - Python values that the plugin builds (strings, lists, insertion-ordered
      dicts) are the type [pyval]; a dict is the association list of its
      items in insertion order.
    - The standard library pieces the plugin calls ([bytes.decode],
      [str.encode], [int], [json.dump], [json.load], [http.server],
      [socketserver.TCPServer]) are modelled next to the plugin code that
      calls them, each under its Python name.
    - Effects are explicit: the module global [REQUESTS_LOG], the console,
      the socket of the connection being served and the file system are
      fields of the process state, threaded through a state-and-exception
      monad.

    What the model takes from the environment.
    - A server run is given the connections that arrive before the
      operator's interrupt; the interrupt falls between two connections.
      Each connection carries one request (the handlers keep the default
      [protocol_version], HTTP/1.0) whose request line and headers
      [parse_request] has accepted; binding the port succeeds.
    - The interpreter is CPython on a 64-bit platform.  What depends on
      the machine and on the libraries outside the repository is the
      [Host]: whether rich prints a line that carries text sent by a
      client or raises (it reads the text as markup and refuses a closing
      tag that matches no open tag, such as [[/x]]), whether the buffer
      of an [rfile.read(n)] can be allocated, and whether a
      [time.sleep(d)] within the range of the clock returns.  Every
      property holds for every host.
    - [console.print] of a line made of the plugin's own text, of numbers
      and of the operator's options returns.
    - Opening and writing the save file succeeds.
    - Delays and clock readings are rationals, the values of Python's
      finite floats; for the guards [delay > 0] and for [time.sleep] an
      infinite delay behaves as any delay beyond the range of the clock,
      and a NaN as zero. *)

From Stdlib Require Import NArith ZArith QArith List Bool Lia.
From Stdlib.Strings Require Import String Ascii Byte.
From stdpp Require Import gmap strings sorting.
Import ListNotations.

Local Open Scope N_scope.
Local Open Scope list_scope.
Local Open Scope bool_scope.

(** ** Strings and bytes *)

Abbreviation pystr := (list N).
Abbreviation pybytes := (list byte).

(** An ASCII literal of the source, as a Python [str]. *)
Definition lit (s : string) : pystr :=
  List.map N_of_ascii (list_ascii_of_string s).

Fixpoint pystr_eqb (a b : pystr) : bool :=
  match a, b with
  | [], [] => true
  | x :: a', y :: b' => (x =? y) && pystr_eqb a' b'
  | _, _ => false
  end.

Definition byte_of_N (n : N) : byte :=
  match Byte.of_N n with
  | Some b => b
  | None => x00
  end.

(** Code points that a [str] produced by a decoder can hold: Unicode scalar
    values, that is, no surrogates and nothing above U+10FFFF. *)
Definition is_surrogate (c : N) : bool := (0xD800 <=? c) && (c <=? 0xDFFF).
Definition scalar_value (c : N) : bool := (c <? 0x110000) && negb (is_surrogate c).

(** ** [bytes.decode('utf-8')] and [str.encode()]

    The strict UTF-8 codec: [None] stands for [UnicodeDecodeError]
    (respectively [UnicodeEncodeError]). *)

Definition is_cont (n : N) : bool := (0x80 <=? n) && (n <=? 0xBF).

Definition cons_opt {A} (x : A) (o : option (list A)) : option (list A) :=
  match o with
  | Some l => Some (x :: l)
  | None => None
  end.

Fixpoint utf8_decode (bs : pybytes) : option pystr :=
  match bs with
  | [] => Some []
  | b0 :: r0 =>
    let n0 := Byte.to_N b0 in
    if n0 <? 0x80 then cons_opt n0 (utf8_decode r0)
    else if (0xC2 <=? n0) && (n0 <=? 0xDF) then
      match r0 with
      | b1 :: r1 =>
        let n1 := Byte.to_N b1 in
        if is_cont n1
        then cons_opt (N.lor (N.shiftl (N.land n0 0x1F) 6) (N.land n1 0x3F))
                      (utf8_decode r1)
        else None
      | _ => None
      end
    else if (0xE0 <=? n0) && (n0 <=? 0xEF) then
      match r0 with
      | b1 :: b2 :: r2 =>
        let n1 := Byte.to_N b1 in
        let n2 := Byte.to_N b2 in
        if is_cont n1 && is_cont n2
           && negb ((n0 =? 0xE0) && (n1 <? 0xA0))
           && negb ((n0 =? 0xED) && (0x9F <? n1))
        then cons_opt (N.lor (N.shiftl (N.land n0 0x0F) 12)
                        (N.lor (N.shiftl (N.land n1 0x3F) 6) (N.land n2 0x3F)))
                      (utf8_decode r2)
        else None
      | _ => None
      end
    else if (0xF0 <=? n0) && (n0 <=? 0xF4) then
      match r0 with
      | b1 :: b2 :: b3 :: r3 =>
        let n1 := Byte.to_N b1 in
        let n2 := Byte.to_N b2 in
        let n3 := Byte.to_N b3 in
        if is_cont n1 && is_cont n2 && is_cont n3
           && negb ((n0 =? 0xF0) && (n1 <? 0x90))
           && negb ((n0 =? 0xF4) && (0x8F <? n1))
        then cons_opt (N.lor (N.shiftl (N.land n0 0x07) 18)
                        (N.lor (N.shiftl (N.land n1 0x3F) 12)
                          (N.lor (N.shiftl (N.land n2 0x3F) 6) (N.land n3 0x3F))))
                      (utf8_decode r3)
        else None
      | _ => None
      end
    else None
  end.

Definition utf8_encode_cp (c : N) : option pybytes :=
  if c <? 0x80 then Some [byte_of_N c]
  else if c <? 0x800 then
    Some [byte_of_N (N.lor 0xC0 (N.shiftr c 6));
          byte_of_N (N.lor 0x80 (N.land c 0x3F))]
  else if c <? 0x10000 then
    if is_surrogate c then None
    else Some [byte_of_N (N.lor 0xE0 (N.shiftr c 12));
               byte_of_N (N.lor 0x80 (N.land (N.shiftr c 6) 0x3F));
               byte_of_N (N.lor 0x80 (N.land c 0x3F))]
  else if c <? 0x110000 then
    Some [byte_of_N (N.lor 0xF0 (N.shiftr c 18));
          byte_of_N (N.lor 0x80 (N.land (N.shiftr c 12) 0x3F));
          byte_of_N (N.lor 0x80 (N.land (N.shiftr c 6) 0x3F));
          byte_of_N (N.lor 0x80 (N.land c 0x3F))]
  else None.

Fixpoint utf8_encode (s : pystr) : option pybytes :=
  match s with
  | [] => Some []
  | c :: r =>
    match utf8_encode_cp c, utf8_encode r with
    | Some b, Some bs => Some (b ++ bs)
    | _, _ => None
    end
  end.

(** ** Python values and the [json] module

    [pyval] covers the values the plugin serialises: [str], [list] and
    [dict] with [str] keys. *)

Unset Elimination Schemes.
Inductive pyval : Type :=
| PStr (s : pystr)
| PList (items : list pyval)
| PDict (items : list (pystr * pyval)).
Set Elimination Schemes.

(** [d[k] = v] on an insertion-ordered dict: an existing key keeps its
    position and takes the new value, a new key goes last. *)
Fixpoint dict_set {V} (d : list (pystr * V)) (k : pystr) (v : V) : list (pystr * V) :=
  match d with
  | [] => [(k, v)]
  | (k', v') :: d' =>
    if pystr_eqb k' k then (k', v) :: d' else (k', v') :: dict_set d' k v
  end.

(** [dict(pairs)]. *)
Definition py_dict {V} (pairs : list (pystr * V)) : list (pystr * V) :=
  fold_left (fun d kv => dict_set d (fst kv) (snd kv)) pairs [].

Fixpoint dict_get {V} (d : list (pystr * V)) (k : pystr) : option V :=
  match d with
  | [] => None
  | (k', v) :: d' => if pystr_eqb k' k then Some v else dict_get d' k
  end.

(** [o[k]] on a dict; [None] stands for [KeyError] (or [TypeError]). *)
Definition py_getitem (o : pyval) (k : pystr) : option pyval :=
  match o with
  | PDict d => dict_get d k
  | _ => None
  end.

Module Json.

(** Characters of the JSON grammar. *)
Definition QUOTE : N := 34.
Definition BACKSLASH : N := 92.
Definition LBRACKET : N := 91.
Definition RBRACKET : N := 93.
Definition LBRACE : N := 123.
Definition RBRACE : N := 125.
Definition COMMA : N := 44.
Definition COLON : N := 58.
Definition SPACE : N := 32.
Definition NEWLINE : N := 10.
Definition LOWER_U : N := 117.

(** *** Encoder: [json.dumps] / [json.dump] with [ensure_ascii=True] *)

(** One digit of ['{0:04x}'.format(n)]. *)
Definition hexdigit (d : N) : N := if d <? 10 then 48 + d else 87 + d.

Definition hex4 (n : N) : pystr :=
  [hexdigit (N.land (N.shiftr n 12) 0xF); hexdigit (N.land (N.shiftr n 8) 0xF);
   hexdigit (N.land (N.shiftr n 4) 0xF); hexdigit (N.land n 0xF)].

(** [replace] of [py_encode_basestring_ascii], applied to the characters
    that [ESCAPE_ASCII] matches. *)
Definition escape_char (c : N) : pystr :=
  if c =? BACKSLASH then [BACKSLASH; BACKSLASH]
  else if c =? QUOTE then [BACKSLASH; QUOTE]
  else if c =? 8 then [BACKSLASH; 98]
  else if c =? 12 then [BACKSLASH; 102]
  else if c =? 10 then [BACKSLASH; 110]
  else if c =? 13 then [BACKSLASH; 114]
  else if c =? 9 then [BACKSLASH; 116]
  else if c <? 0x10000 then BACKSLASH :: LOWER_U :: hex4 c
  else
    let n := c - 0x10000 in
    let s1 := N.lor 0xD800 (N.land (N.shiftr n 10) 0x3FF) in
    let s2 := N.lor 0xDC00 (N.land n 0x3FF) in
    (BACKSLASH :: LOWER_U :: hex4 s1) ++ (BACKSLASH :: LOWER_U :: hex4 s2).

(** The characters [ESCAPE_ASCII] matches: the backslash, the double
    quote and everything outside the printable ASCII range. *)
Definition needs_escape (c : N) : bool :=
  (c =? BACKSLASH) || (c =? QUOTE) || (c <? 32) || (126 <? c).

Definition encode_char (c : N) : pystr :=
  if needs_escape c then escape_char c else [c].

Definition encode_basestring_ascii (s : pystr) : pystr :=
  QUOTE :: flat_map encode_char s ++ [QUOTE].

(** ['\n' + ' ' * (indent * level)] when [indent] is given, nothing
    otherwise. *)
Definition newline_indent (indent : option nat) (level : nat) : pystr :=
  match indent with
  | Some n => NEWLINE :: repeat SPACE (n * level)
  | None => []
  end.

(** [item_separator] is [','] with an indent and [', '] without. *)
Definition item_separator (indent : option nat) : pystr :=
  match indent with
  | Some _ => [COMMA]
  | None => [COMMA; SPACE]
  end.

Definition key_separator : pystr := [COLON; SPACE].

(** [_iterencode], with the chunks it yields concatenated. *)
Fixpoint iterencode (indent : option nat) (level : nat) (o : pyval) : pystr :=
  match o with
  | PStr s => encode_basestring_ascii s
  | PList [] => [LBRACKET; RBRACKET]
  | PList (x :: xs) =>
    LBRACKET :: newline_indent indent (S level)
      ++ iterencode indent (S level) x
      ++ (fix rest (l : list pyval) : pystr :=
            match l with
            | [] => []
            | y :: ys =>
              item_separator indent ++ newline_indent indent (S level)
                ++ iterencode indent (S level) y ++ rest ys
            end) xs
      ++ newline_indent indent level ++ [RBRACKET]
  | PDict [] => [LBRACE; RBRACE]
  | PDict ((k, v) :: kvs) =>
    LBRACE :: newline_indent indent (S level)
      ++ encode_basestring_ascii k ++ key_separator
      ++ iterencode indent (S level) v
      ++ (fix rest (l : list (pystr * pyval)) : pystr :=
            match l with
            | [] => []
            | (k', v') :: l' =>
              item_separator indent ++ newline_indent indent (S level)
                ++ encode_basestring_ascii k' ++ key_separator
                ++ iterencode indent (S level) v' ++ rest l'
            end) kvs
      ++ newline_indent indent level ++ [RBRACE]
  end.

Definition dumps (indent : option nat) (o : pyval) : pystr :=
  iterencode indent 0 o.

(** *** Decoder: [json.loads] / [json.load]

    The scanner of the decoder on the fragment of JSON that [dumps]
    emits for a [pyval]: strings, arrays and objects.  Number and
    literal tokens, which no [pyval] serialises to, are answered with
    [None], as are all malformed documents ([JSONDecodeError]). *)

Definition hexval (c : N) : option N :=
  if (48 <=? c) && (c <=? 57) then Some (c - 48)
  else if (97 <=? c) && (c <=? 102) then Some (c - 87)
  else if (65 <=? c) && (c <=? 70) then Some (c - 55)
  else None.

(** The four hexadecimal digits of a [\uXXXX] escape. *)
Definition decode_uXXXX (h1 h2 h3 h4 : N) : option N :=
  match hexval h1, hexval h2, hexval h3, hexval h4 with
  | Some d1, Some d2, Some d3, Some d4 =>
    Some (N.lor (N.shiftl (N.lor (N.shiftl (N.lor (N.shiftl d1 4) d2) 4) d3) 4) d4)
  | _, _, _, _ => None
  end.

(** The [BACKSLASH] table of the decoder. *)
Definition unescape (e : N) : option N :=
  if e =? QUOTE then Some QUOTE
  else if e =? BACKSLASH then Some BACKSLASH
  else if e =? 47 then Some 47
  else if e =? 98 then Some 8
  else if e =? 102 then Some 12
  else if e =? 110 then Some 10
  else if e =? 114 then Some 13
  else if e =? 116 then Some 9
  else None.

Definition push (c : N) (o : option (pystr * pystr)) : option (pystr * pystr) :=
  match o with
  | Some (s, r) => Some (c :: s, r)
  | None => None
  end.

Definition is_high_surrogate (c : N) : bool := (0xD800 <=? c) && (c <=? 0xDBFF).
Definition is_low_surrogate (c : N) : bool := (0xDC00 <=? c) && (c <=? 0xDFFF).

(** [scanstring] (strict mode), started just after the opening quote;
    the result is the decoded string and the input after the closing
    quote. *)
Fixpoint scanstring (s : pystr) : option (pystr * pystr) :=
  match s with
  | [] => None
  | c :: r =>
    if c =? QUOTE then Some ([], r)
    else if c =? BACKSLASH then
      match r with
      | [] => None
      | e :: r1 =>
        if e =? LOWER_U then
          match r1 with
          | h1 :: h2 :: h3 :: h4 :: r2 =>
            match decode_uXXXX h1 h2 h3 h4 with
            | None => None
            | Some uni =>
              if is_high_surrogate uni then
                match r2 with
                | b :: u :: k1 :: k2 :: k3 :: k4 :: r3 =>
                  if (b =? BACKSLASH) && (u =? LOWER_U) then
                    match decode_uXXXX k1 k2 k3 k4 with
                    | None => None
                    | Some uni2 =>
                      if is_low_surrogate uni2
                      then push (0x10000 + N.lor (N.shiftl (uni - 0xD800) 10)
                                                 (uni2 - 0xDC00))
                                (scanstring r3)
                      else push uni (scanstring r2)
                    end
                  else push uni (scanstring r2)
                | _ => push uni (scanstring r2)
                end
              else push uni (scanstring r2)
            end
          | _ => None
          end
        else
          match unescape e with
          | Some ch => push ch (scanstring r1)
          | None => None
          end
      end
    else if c <? 0x20 then None
    else push c (scanstring r)
  end.

(** [WHITESPACE = [ \t\n\r]*]. *)
Definition is_ws (c : N) : bool :=
  (c =? SPACE) || (c =? 9) || (c =? NEWLINE) || (c =? 13).

Fixpoint skip_ws (s : pystr) : pystr :=
  match s with
  | c :: r => if is_ws c then skip_ws r else s
  | [] => []
  end.

(** [scan_once], [JSONArray] and [JSONObject].  The recursion of the
    Python scanner follows the nesting of the document; here it is
    bounded by [fuel], and [loads] supplies more than any document
    needs. *)
Fixpoint scan_once (fuel : nat) (s : pystr) : option (pyval * pystr) :=
  match fuel with
  | O => None
  | S fuel' =>
    match s with
    | [] => None
    | c :: r =>
      if c =? QUOTE then
        match scanstring r with
        | Some (str, r') => Some (PStr str, r')
        | None => None
        end
      else if c =? LBRACE then
        match skip_ws r with
        | c' :: r' =>
          if c' =? RBRACE then Some (PDict [], r')
          else if c' =? QUOTE then
            match object_items fuel' r' with
            | Some (pairs, r'') => Some (PDict (py_dict pairs), r'')
            | None => None
            end
          else None
        | [] => None
        end
      else if c =? LBRACKET then
        match skip_ws r with
        | c' :: r' =>
          if c' =? RBRACKET then Some (PList [], r')
          else
            match array_items fuel' (c' :: r') with
            | Some (values, r'') => Some (PList values, r'')
            | None => None
            end
        | [] => None
        end
      else None
    end
  end

(** The loop of [JSONArray], entered at the first character of a value. *)
with array_items (fuel : nat) (s : pystr) : option (list pyval * pystr) :=
  match fuel with
  | O => None
  | S fuel' =>
    match scan_once fuel' s with
    | None => None
    | Some (value, r) =>
      match skip_ws r with
      | c :: r' =>
        if c =? RBRACKET then Some ([value], r')
        else if c =? COMMA then
          match array_items fuel' (skip_ws r') with
          | Some (values, r'') => Some (value :: values, r'')
          | None => None
          end
        else None
      | [] => None
      end
    end
  end

(** The loop of [JSONObject], entered just after the opening quote of a
    key. *)
with object_items (fuel : nat) (s : pystr) : option (list (pystr * pyval) * pystr) :=
  match fuel with
  | O => None
  | S fuel' =>
    match scanstring s with
    | None => None
    | Some (key, r) =>
      match skip_ws r with
      | c :: r1 =>
        if c =? COLON then
          match scan_once fuel' (skip_ws r1) with
          | None => None
          | Some (value, r2) =>
            match skip_ws r2 with
            | c' :: r3 =>
              if c' =? RBRACE then Some ([(key, value)], r3)
              else if c' =? COMMA then
                match skip_ws r3 with
                | q :: r4 =>
                  if q =? QUOTE then
                    match object_items fuel' r4 with
                    | Some (pairs, r5) => Some ((key, value) :: pairs, r5)
                    | None => None
                    end
                  else None
                | [] => None
                end
              else None
            | [] => None
            end
          end
        else None
      | [] => None
      end
    end
  end.

(** [JSONDecoder.decode]: one value, surrounded by optional whitespace,
    and nothing after it. *)
Definition loads (s : pystr) : option pyval :=
  match scan_once (S (length s)) (skip_ws s) with
  | Some (obj, r) =>
    match skip_ws r with
    | [] => Some obj
    | _ :: _ => None
    end
  | None => None
  end.

End Json.

(** ** [int(str)]

    Base-10 conversion of a header value: optional surrounding whitespace,
    an optional sign, then decimal digits in which single underscores may
    separate digits.  Header values are decoded as ISO-8859-1, so only
    code points below 256 matter: the whitespace recognised there is
    U+0009..U+000D, U+0020, U+0085 and U+00A0, and the decimal digits are
    ['0'..'9'].  [None] stands for [ValueError], which is also raised when
    the literal has more than 4300 digits (the default of
    [sys.set_int_max_str_digits]). *)

Definition is_int_space (c : N) : bool :=
  ((9 <=? c) && (c <=? 13)) || (c =? 32) || (c =? 0x85) || (c =? 0xA0).

Definition is_digit (c : N) : bool := (48 <=? c) && (c <=? 57).

Fixpoint lstrip (s : pystr) : pystr :=
  match s with
  | c :: r => if is_int_space c then lstrip r else s
  | [] => []
  end.

Definition strip (s : pystr) : pystr := rev (lstrip (rev (lstrip s))).

(** Digits after the first one: [acc] is the value so far, [n] the number of
    digits read, [after_digit] tells whether the previous character was a
    digit (an underscore must stand between two digits). *)
Fixpoint int_digits (s : pystr) (acc : Z) (n : nat) (after_digit : bool) : option (Z * nat) :=
  match s with
  | [] => if after_digit then Some (acc, n) else None
  | c :: r =>
    if is_digit c then int_digits r (10 * acc + Z.of_N (c - 48))%Z (S n) true
    else if (c =? 95) && after_digit then int_digits r acc n false
    else None
  end.

Definition int_max_str_digits : nat := 4300.

Definition int_unsigned (s : pystr) : option Z :=
  match s with
  | c :: r =>
    if is_digit c then
      match int_digits r (Z.of_N (c - 48)) 1 true with
      | Some (v, n) => if (int_max_str_digits <? n)%nat then None else Some v
      | None => None
      end
    else None
  | [] => None
  end.

Definition py_int (s : pystr) : option Z :=
  match strip s with
  | c :: r =>
    if c =? 45 then option_map Z.opp (int_unsigned r)
    else if c =? 43 then int_unsigned r
    else int_unsigned (c :: r)
  | [] => None
  end.

(** ** The process: globals, console, sockets, files *)

Inductive exn : Type :=
| ValueError
| UnicodeDecodeError
| UnicodeEncodeError
| KeyError
| OverflowError
| MemoryError
| OSError
| MarkupError
| RequestException (msg : pystr).

(** What a handler writes to the socket of its connection ([self.wfile]). *)
Inductive wire : Type :=
| send_response (code : Z)
| send_header (keyword value : pystr)
| end_headers
| wfile_write (data : pybytes)
| send_error (code : Z).

(** The outbound calls of [send_webhook], each with [timeout=30]. *)
Inductive http_call (Body : Type) : Type :=
| requests_get (url : pystr) (headers : list (pystr * pystr))
| requests_post (url : pystr) (json : Body) (headers : list (pystr * pystr))
| requests_put (url : pystr) (json : Body) (headers : list (pystr * pystr))
| requests_delete (url : pystr) (headers : list (pystr * pystr))
| requests_request (method url : pystr) (json : Body) (headers : list (pystr * pystr)).
Arguments requests_get {Body}.
Arguments requests_post {Body}.
Arguments requests_put {Body}.
Arguments requests_delete {Body}.
Arguments requests_request {Body}.

(** The [console.print] calls of the plugin, each with the values
    interpolated into its f-string; the banner a command prints when it
    starts is one line here.  [capture_preview] stands for the preview of
    a non-empty body (lines 52 to 59): the body pretty-printed as JSON
    or, when that fails, its first 200 characters as markup. *)
Inductive console_line : Type :=
| listener_banner (port : Z)
| listener_stopping
| listener_saved (count : nat) (save : string)
| capture_request (method path : pystr)
| capture_sizes (header_count body_length : nat)
| capture_preview (body : pystr)
| mock_banner (port : Z) (response_prefix : pystr) (status : Z)
| mock_request (command path : pystr) (status : Z)
| mock_stopped
| send_banner (method url : pystr)
| send_status (is_error_status : bool) (status_code : Z) (elapsed_ms : Q)
| send_failure (e : exn)
| send_summary (repeat : Z).

(** The host of the process.
    - [console_accepts l]: [console.print] of the line [l], which carries
      text sent by a client, returns; otherwise it raises (rich's
      [MarkupError], or an error of the terminal).
    - [allocates n]: the buffer for [rfile.read(n)] can be allocated.
    - [sleeps_through d]: [time.sleep(d)] returns, for a [d] within the
      range of the clock. *)
Class Host : Type := {
  console_accepts : console_line -> bool;
  allocates : Z -> bool;
  sleeps_through : Q -> bool
}.

Inductive event : Type :=
| Console (line : console_line)
| Wire (client : nat) (w : wire)
| Sleep (seconds : Q)
| HandleError (client : nat) (e : exn)
| Attempt (i : nat).

Record process : Type := {
  REQUESTS_LOG : list pyval;
  trace : list event;
  files : gmap string pystr
}.

Inductive outcome (A : Type) : Type :=
| Return (a : A)
| Raise (e : exn).
Arguments Return {A}.
Arguments Raise {A}.

(** Statements of the plugin: a state transformer on the process that
    either returns or raises. *)
Definition M (A : Type) : Type := process -> outcome A * process.

Definition ret {A} (a : A) : M A := fun p => (Return a, p).
Definition raise {A} (e : exn) : M A := fun p => (Raise e, p).
Definition bind {A B} (m : M A) (k : A -> M B) : M B :=
  fun p =>
    match m p with
    | (Return a, p') => k a p'
    | (Raise e, p') => (Raise e, p')
    end.

Declare Scope py_scope.
Delimit Scope py_scope with py.
Notation "x <- m ;; k" := (bind m (fun x => k))
  (at level 100, m at next level, right associativity) : py_scope.
Notation "m ;;; k" := (bind m (fun _ => k))
  (at level 100, right associativity) : py_scope.

(** [try: body except Exception as e: handler(e)]. *)
Definition try_except {A} (body : M A) (handler : exn -> M A) : M A :=
  fun p =>
    match body p with
    | (Return a, p') => (Return a, p')
    | (Raise e, p') => handler e p'
    end.

Definition emit (e : event) : M unit :=
  fun p => (Return tt, {| REQUESTS_LOG := REQUESTS_LOG p;
                          trace := trace p ++ [e];
                          files := files p |}).

(** [console.print] of a line without client text. *)
Definition console_print (l : console_line) : M unit := emit (Console l).

(** [console.print] of a line that carries text sent by a client: nothing
    is printed when it raises. *)
Definition console_print_markup {host : Host} (l : console_line) : M unit :=
  if console_accepts l then emit (Console l) else raise MarkupError.

(** The delays from which [time.sleep] raises [OverflowError] on every
    host: its clock counts nanoseconds in 64 bits, and the product of the
    delay and 1e9 is formed in double precision, whose values just above
    2^63 are 2^11 apart. *)
Definition sleep_limit : Q := (9223372036854777856 # 1000000000)%Q.

(** What [time.sleep(d)] raises, if anything. *)
Definition sleep_raises {host : Host} (d : Q) : option exn :=
  if negb (Qle_bool 0%Q d) then Some ValueError
  else if Qle_bool sleep_limit d then Some OverflowError
  else if sleeps_through d then None
  else Some OSError.

Definition time_sleep {host : Host} (d : Q) : M unit :=
  match sleep_raises d with
  | Some e => raise e
  | None => emit (Sleep d)
  end.

(** [REQUESTS_LOG.append(x)]. *)
Definition REQUESTS_LOG_append (x : pyval) : M unit :=
  fun p => (Return tt, {| REQUESTS_LOG := REQUESTS_LOG p ++ [x];
                          trace := trace p;
                          files := files p |}).

(** [with open(path, 'w') as f: f.write(text)]. *)
Definition write_file (path : string) (text : pystr) : M unit :=
  fun p => (Return tt, {| REQUESTS_LOG := REQUESTS_LOG p;
                          trace := trace p;
                          files := <[path := text]> (files p) |}).

Definition of_option {A} (o : option A) (e : exn) : M A :=
  match o with
  | Some a => ret a
  | None => raise e
  end.

(** [d > 0] on the rationals. *)
Definition Qpositive (d : Q) : bool := negb (Qle_bool d 0).

(** ** [http.server.BaseHTTPRequestHandler] and [socketserver.TCPServer] *)

(** A request as the handler sees it once [parse_request] has succeeded:
    [self.command], [self.path], [self.headers] (the header lines in
    arrival order, duplicates kept) and the bytes the client sends after
    the header block before it stops sending ([self.rfile]).  [arrival] is
    what [datetime.now().isoformat()] returns while the request is
    handled. *)
Record request : Type := {
  command : pystr;
  path : pystr;
  headers : list (pystr * pystr);
  rfile : pybytes;
  arrival : pystr
}.

(** [str.lower] on the code points an ISO-8859-1 header name can hold. *)
Definition lower_char (c : N) : N :=
  if (65 <=? c) && (c <=? 90) then c + 32
  else if (0xC0 <=? c) && (c <=? 0xDE) && negb (c =? 0xD7) then c + 32
  else c.

Definition lower (s : pystr) : pystr := List.map lower_char s.

(** [self.headers.get(name)]: the value of the first header line whose name
    matches case-insensitively. *)
Fixpoint headers_get (h : list (pystr * pystr)) (name : pystr) : option pystr :=
  match h with
  | [] => None
  | (k, v) :: h' =>
    if pystr_eqb (lower k) (lower name) then Some v else headers_get h' name
  end.

(** [dict(self.headers)]: every header name, in order of first appearance,
    bound to [self.headers[name]]. *)
Definition dict_of_headers (h : list (pystr * pystr)) : list (pystr * pyval) :=
  py_dict (List.map (fun kv =>
                       (fst kv, match headers_get h (fst kv) with
                                | Some v => PStr v
                                | None => PStr []
                                end)) h).

(** The largest [Py_ssize_t], and the size of the header of a [bytes]
    object. *)
Definition PY_SSIZE_T_MAX : Z := 2 ^ 63 - 1.
Definition PyBytesObject_SIZE : Z := 33.

(** What [self.rfile.read(n)] raises, if anything, for [n > 0]: the buffer
    of [n] bytes is allocated before the first byte is read. *)
Definition read_raises {host : Host} (n : Z) : option exn :=
  if (PY_SSIZE_T_MAX - PyBytesObject_SIZE <? n)%Z then Some OverflowError
  else if allocates n then None
  else Some MemoryError.

(** The first [n] bytes the client sends after the header block. *)
Definition body_bytes (self : request) (n : Z) : pybytes :=
  firstn (Z.to_nat n) (rfile self).

(** [self.rfile.read(n)], for [n > 0]. *)
Definition rfile_read {host : Host} (self : request) (n : Z) : M pybytes :=
  match read_raises n with
  | Some e => raise e
  | None => ret (body_bytes self n)
  end.

Definition wfile (client : nat) (w : wire) : M unit := emit (Wire client w).

(** A handler class: the [do_*] methods it defines, looked up by
    [self.command]. *)
Definition handler_class : Type := pystr -> option (nat -> request -> M unit).

(** [handle_one_request], after [parse_request]: a command without a
    [do_<command>] method is answered with 501. *)
Definition handle_one_request (cls : handler_class) (client : nat) (self : request) : M unit :=
  match cls (command self) with
  | None => wfile client (send_error 501)
  | Some method => method client self
  end.

(** [TCPServer.serve_forever]: connections are taken from the listening
    socket one after the other; [process_request] runs the handler to its
    end before the next connection is accepted, and an exception of the
    handler is reported by [handle_error] and goes no further.  [conns] are
    the connections that arrive before the operator's interrupt; the result
    is the process at the interrupt. *)
Definition process_request (cls : handler_class) (client : nat) (self : request) : process -> process :=
  fun p =>
    match handle_one_request cls client self p with
    | (Return _, p') => p'
    | (Raise e, p') => snd (emit (HandleError client e) p')
    end.

Fixpoint serve_from (cls : handler_class) (client : nat) (conns : list request) (p : process) : process :=
  match conns with
  | [] => p
  | self :: rest => serve_from cls (S client) rest (process_request cls client self p)
  end.

Definition serve_forever (cls : handler_class) (conns : list request) (p : process) : process :=
  serve_from cls 0 conns p.

(** [M] statements that cannot raise, run for their effect. *)
Definition exec (m : M unit) (p : process) : process := snd (m p).

(** ** The capture server: [WebhookHandler] and [listen] *)

Local Open Scope py_scope.

Definition _handle_request {host : Host} (method : pystr) (client : nat) (self : request) : M unit :=
  content_length <-
    match headers_get (headers self) (lit "Content-Length") with
    | Some v => of_option (py_int v) ValueError
    | None => ret 0%Z
    end ;;
  body <-
    (if (0 <? content_length)%Z
     then data <- rfile_read self content_length ;;
          of_option (utf8_decode data) UnicodeDecodeError
     else ret []) ;;
  let request_data :=
    PDict [(lit "timestamp", PStr (arrival self));
           (lit "method", PStr method);
           (lit "path", PStr (path self));
           (lit "headers", PDict (dict_of_headers (headers self)));
           (lit "body", PStr body)] in
  REQUESTS_LOG_append request_data ;;;
  console_print_markup (capture_request method (path self)) ;;;
  console_print (capture_sizes (length (headers self)) (length body)) ;;;
  (match body with
   | [] => ret tt
   | _ :: _ => console_print_markup (capture_preview body)
   end) ;;;
  wfile client (send_response 200) ;;;
  wfile client (send_header (lit "Content-type") (lit "application/json")) ;;;
  wfile client end_headers ;;;
  timestamp <- of_option (py_getitem request_data (lit "timestamp")) KeyError ;;
  let response :=
    PDict [(lit "status", PStr (lit "received"));
           (lit "timestamp", timestamp)] in
  data <- of_option (utf8_encode (Json.dumps None response)) UnicodeEncodeError ;;
  wfile client (wfile_write data).

Definition WebhookHandler {host : Host} : handler_class :=
  fun command =>
    if pystr_eqb command (lit "GET") then Some (_handle_request (lit "GET"))
    else if pystr_eqb command (lit "POST") then Some (_handle_request (lit "POST"))
    else if pystr_eqb command (lit "PUT") then Some (_handle_request (lit "PUT"))
    else if pystr_eqb command (lit "DELETE") then Some (_handle_request (lit "DELETE"))
    else if pystr_eqb command (lit "PATCH") then Some (_handle_request (lit "PATCH"))
    else None.

(** [if save and REQUESTS_LOG]: the option was given, is not the empty
    string, and the log is not empty. *)
Definition save_wanted (save : option string) (log : list pyval) : option string :=
  match save, log with
  | Some file, _ :: _ => if String.eqb file "" then None else Some file
  | _, _ => None
  end.

(** The save step of [start_listener] (the [if save and REQUESTS_LOG] block):
    [json.dump(REQUESTS_LOG, f, indent=2)] into the file [save]. *)
Definition save_requests (save : option string) (p : process) : process :=
  match save_wanted save (REQUESTS_LOG p) with
  | Some file =>
    exec (write_file file (Json.dumps (Some 2%nat) (PList (REQUESTS_LOG p))) ;;;
          console_print (listener_saved (length (REQUESTS_LOG p)) file)) p
  | None => p
  end.

(** [start_listener]: the listener runs until the interrupt; the
    [KeyboardInterrupt] branch then saves the log. *)
Definition start_listener {host : Host} (port : Z) (save : option string) (conns : list request)
           (p : process) : process :=
  let p := exec (console_print (listener_banner port)) p in
  let p := serve_forever WebhookHandler conns p in
  let p := exec (console_print listener_stopping) p in
  save_requests save p.

(** ** [inspect]: the file-reading step

    [with open(file_path) as f: requests_data = json.load(f)]; [None]
    stands for the exception the enclosing [try] reports. *)
Definition inspect_requests_load (file_path : string) (p : process) : option pyval :=
  match files p !! file_path with
  | Some text => Json.loads text
  | None => None
  end.

(** ** The mock server *)

Record MockConfig : Type := {
  mock_port : Z;
  mock_response : pystr;
  mock_status : Z;
  mock_delay : Q
}.

Definition _respond {host : Host} (cfg : MockConfig) (client : nat) (self : request) : M unit :=
  (if Qpositive (mock_delay cfg) then time_sleep (mock_delay cfg) else ret tt) ;;;
  wfile client (send_response (mock_status cfg)) ;;;
  wfile client (send_header (lit "Content-type") (lit "application/json")) ;;;
  wfile client end_headers ;;;
  data <- of_option (utf8_encode (mock_response cfg)) UnicodeEncodeError ;;
  wfile client (wfile_write data) ;;;
  console_print_markup (mock_request (command self) (path self) (mock_status cfg)).

Definition MockHandler {host : Host} (cfg : MockConfig) : handler_class :=
  fun command =>
    if pystr_eqb command (lit "GET") then Some (_respond cfg)
    else if pystr_eqb command (lit "POST") then Some (_respond cfg)
    else if pystr_eqb command (lit "PUT") then Some (_respond cfg)
    else if pystr_eqb command (lit "DELETE") then Some (_respond cfg)
    else None.

Definition mock_server {host : Host} (cfg : MockConfig) (conns : list request) (p : process) : process :=
  let p := exec (console_print (mock_banner (mock_port cfg)
                                  (firstn 50 (mock_response cfg)) (mock_status cfg))) p in
  let p := serve_forever (MockHandler cfg) conns p in
  exec (console_print mock_stopped) p.

(** ** The sender: the loop of [send_webhook] *)

Section Sender.

(** The JSON payload, [str.upper], the readings of [time.time()] before
    and after the [i]-th request, and what the [requests] library does
    with the [i]-th request: a response with its status code, or an
    exception (connection refused, timeout, DNS failure, ...). *)
Context {host : Host}.
Variable Body : Type.
Variable upper : pystr -> pystr.
Variable time_before time_after : nat -> Q.
Variable transport : nat -> http_call Body -> Z + pystr.

Definition perform (i : nat) (call : http_call Body) : M Z :=
  emit (Attempt i) ;;;
  match transport i call with
  | inl status_code => ret status_code
  | inr msg => raise (RequestException msg)
  end.

(** The body of the [for] loop, for index [i]. *)
Definition send_once (url method : pystr) (body : Body) (headers : list (pystr * pystr))
           (repeat : Z) (delay : Q) (i : nat) : M unit :=
  try_except
    (let start := time_before i in
     status_code <-
       (if pystr_eqb (upper method) (lit "GET") then
          perform i (requests_get url headers)
        else if pystr_eqb (upper method) (lit "POST") then
          perform i (requests_post url body headers)
        else if pystr_eqb (upper method) (lit "PUT") then
          perform i (requests_put url body headers)
        else if pystr_eqb (upper method) (lit "DELETE") then
          perform i (requests_delete url headers)
        else perform i (requests_request (upper method) url body headers)) ;;
     let elapsed := ((time_after i - start) * 1000)%Q in
     console_print (send_status (negb (status_code <? 400)%Z) status_code elapsed) ;;;
     if (1 <? repeat)%Z && (Z.of_nat i <? repeat - 1)%Z && Qpositive delay
     then time_sleep delay
     else ret tt)
    (fun e => console_print (send_failure e)).

(** [for i in range(start, start + n)]. *)
Fixpoint for_range (n : nat) (start : nat) (body : nat -> M unit) : M unit :=
  match n with
  | O => ret tt
  | S n' => body start ;;; for_range n' (S start) body
  end.

(** [send_webhook] from its first [console.print] on; [headers] and
    [body] are the values the lines before it build from the command
    line. *)
Definition send_webhook (url method : pystr) (body : Body) (headers : list (pystr * pystr))
           (repeat : Z) (delay : Q) : M unit :=
  console_print (send_banner method url) ;;;
  for_range (Z.to_nat repeat) 0 (send_once url method body headers repeat delay) ;;;
  if (1 <? repeat)%Z then console_print (send_summary repeat) else ret tt.

(** The call the loop body makes for [method]. *)
Definition the_call (url method : pystr) (body : Body) (headers : list (pystr * pystr))
  : http_call Body :=
  if pystr_eqb (upper method) (lit "GET") then requests_get url headers
  else if pystr_eqb (upper method) (lit "POST") then requests_post url body headers
  else if pystr_eqb (upper method) (lit "PUT") then requests_put url body headers
  else if pystr_eqb (upper method) (lit "DELETE") then requests_delete url headers
  else requests_request (upper method) url body headers.


(** What attempt [i] adds to the trace: after an answer and its status
    line comes the sleep, or the error line of the [except] branch when
    [time.sleep] raises. *)
Definition attempt_events (url method : pystr) (body : Body)
           (headers : list (pystr * pystr)) (repeat : Z) (delay : Q) (i : nat) : list event :=
  Attempt i ::
  match transport i (the_call url method body headers) with
  | inl status_code =>
    Console (send_status (negb (status_code <? 400)%Z) status_code
                         ((time_after i - time_before i) * 1000)%Q)
    :: (if (1 <? repeat)%Z && (Z.of_nat i <? repeat - 1)%Z && Qpositive delay
        then match sleep_raises delay with
             | Some e => [Console (send_failure e)]
             | None => [Sleep delay]
             end
        else [])
  | inr msg => [Console (send_failure (RequestException msg))]
  end.

End Sender.




Definition is_error {A B} (o : A + B) : bool :=
  match o with
  | inl _ => false
  | inr _ => true
  end.

Local Close Scope py_scope.

Definition fresh_process : process :=
  {| REQUESTS_LOG := []; trace := []; files := ∅ |}.

(** ** Well-formed values

    A [str] built by a decoder holds Unicode scalar values only, and a
    [dict] holds each key once.  [json_safe] says so of a whole value. *)

Definition is_text (s : pystr) : bool := forallb scalar_value s.

Fixpoint distinct_keys (ks : list pystr) : bool :=
  match ks with
  | [] => true
  | k :: r => negb (existsb (pystr_eqb k) r) && distinct_keys r
  end.

Fixpoint json_safe (v : pyval) : bool :=
  match v with
  | PStr s => is_text s
  | PList l => forallb json_safe l
  | PDict kvs =>
    distinct_keys (List.map fst kvs)
    && forallb (fun kv => is_text (fst kv) && json_safe (snd kv)) kvs
  end.

(** The number of scanner calls a value costs the decoder. *)
Fixpoint scan_cost (v : pyval) : nat :=
  match v with
  | PStr _ => 1
  | PList l => S (list_sum (List.map (fun x => S (scan_cost x)) l))
  | PDict kvs => S (list_sum (List.map (fun kv => S (scan_cost (snd kv))) kvs))
  end.

(** The inner loops of [Json.iterencode], named: what follows the first
    item of a non-empty list, and of a non-empty dict. *)
Definition list_rest (indent : option nat) (level : nat) : list pyval -> pystr :=
  fix rest (l : list pyval) : pystr :=
    match l with
    | [] => []
    | y :: ys =>
      Json.item_separator indent ++ Json.newline_indent indent (S level)
        ++ Json.iterencode indent (S level) y ++ rest ys
    end.

Definition dict_rest (indent : option nat) (level : nat) : list (pystr * pyval) -> pystr :=
  fix rest (l : list (pystr * pyval)) : pystr :=
    match l with
    | [] => []
    | (k', v') :: l' =>
      Json.item_separator indent ++ Json.newline_indent indent (S level)
        ++ Json.encode_basestring_ascii k' ++ Json.key_separator
        ++ Json.iterencode indent (S level) v' ++ rest l'
    end.

(** ** Vocabulary of the properties *)

(** A RequestRecord: the dict [_handle_request] builds. *)
Definition RequestRecord (timestamp method path : pystr)
           (headers : list (pystr * pyval)) (body : pystr) : pyval :=
  PDict [(lit "timestamp", PStr timestamp);
         (lit "method", PStr method);
         (lit "path", PStr path);
         (lit "headers", PDict headers);
         (lit "body", PStr body)].

Definition is_header_value (kv : pystr * pyval) : bool :=
  is_text (fst kv) && match snd kv with PStr v => is_text v | _ => false end.

(** A value is a RequestRecord: the five fields, all text, with a
    string-keyed dict of text for the headers. *)
Definition is_request_record (v : pyval) : bool :=
  match v with
  | PDict [(k1, PStr t); (k2, PStr m); (k3, PStr p); (k4, PDict h); (k5, PStr b)] =>
    pystr_eqb k1 (lit "timestamp") && pystr_eqb k2 (lit "method")
    && pystr_eqb k3 (lit "path") && pystr_eqb k4 (lit "headers")
    && pystr_eqb k5 (lit "body")
    && is_text t && is_text m && is_text p && is_text b
    && distinct_keys (List.map fst h) && forallb is_header_value h
  | _ => false
  end.

(** A CaptureLog: a sequence of RequestRecords. *)
Definition CaptureLog (log : list pyval) : Prop := forallb is_request_record log = true.

(** A process whose log is [log]. *)
Definition with_log (log : list pyval) (p : process) : process :=
  {| REQUESTS_LOG := log; trace := trace p; files := files p |}.

(** The value of [Content-Length] as the handler computes it. *)
Definition content_length (self : request) : option Z :=
  match headers_get (headers self) (lit "Content-Length") with
  | Some v => py_int v
  | None => Some 0%Z
  end.

(** The body text the handler reads for a content length [n], or the
    exception of the read or of the decoding. *)
Definition request_body {host : Host} (self : request) (n : Z) : outcome pystr :=
  if (0 <? n)%Z then
    match read_raises n with
    | Some e => Raise e
    | None =>
      match utf8_decode (body_bytes self n) with
      | Some body => Return body
      | None => Raise UnicodeDecodeError
      end
    end
  else Return [].

(** The record of a request handled as [method] with body text [body]. *)
Definition record_of (method : pystr) (self : request) (body : pystr) : pyval :=
  RequestRecord (arrival self) method (path self) (dict_of_headers (headers self)) body.

(** The response dict of the handler, and what the handler writes to the
    connection for it (lines 62 to 67). *)
Definition ack_document (t : pystr) : pyval :=
  PDict [(lit "status", PStr (lit "received")); (lit "timestamp", PStr t)].

Definition response_sent (t : pystr) : list wire :=
  [send_response 200;
   send_header (lit "Content-type") (lit "application/json");
   end_headers;
   wfile_write (List.map byte_of_N (Json.dumps None (ack_document t)))].





(** The live trace lines of one captured request. *)
Definition capture_lines (method : pystr) (self : request) (body : pystr) : list event :=
  [Console (capture_request method (path self));
   Console (capture_sizes (length (headers self)) (length body))]
  ++ match body with
     | [] => []
     | _ :: _ => [Console (capture_preview body)]
     end.

(** The console prints the lines of a request: the request line, and the
    preview of a non-empty body. *)
Definition lines_print {host : Host} (method : pystr) (self : request) (body : pystr) : bool :=
  console_accepts (capture_request method (path self))
  && match body with
     | [] => true
     | _ :: _ => console_accepts (capture_preview body)
     end.

(** The lines printed before [console.print] raises, when it does. *)
Definition printed_lines {host : Host} (method : pystr) (self : request) (body : pystr) : list event :=
  if console_accepts (capture_request method (path self))
  then [Console (capture_request method (path self));
        Console (capture_sizes (length (headers self)) (length body))]
  else [].

(** What a handled request adds to the process: one record, its trace
    lines and the response on its own connection. *)
Definition captured (method : pystr) (client : nat) (self : request) (body : pystr)
           (p : process) : process :=
  {| REQUESTS_LOG := REQUESTS_LOG p ++ [record_of method self body];
     trace := trace p ++ capture_lines method self body
                ++ List.map (Wire client) (response_sent (arrival self));
     files := files p |}.

(** What a request adds to the process when [console.print] raises: the
    record, appended before, and the lines printed until then; nothing is
    sent. *)
Definition recorded {host : Host} (method : pystr) (self : request) (body : pystr)
           (p : process) : process :=
  {| REQUESTS_LOG := REQUESTS_LOG p ++ [record_of method self body];
     trace := trace p ++ printed_lines method self body;
     files := files p |}.

(** The methods for which the handler classes define a [do_*] method. *)
Definition capture_methods : list pystr :=
  [lit "GET"; lit "POST"; lit "PUT"; lit "DELETE"; lit "PATCH"].
Definition mock_methods : list pystr :=
  [lit "GET"; lit "POST"; lit "PUT"; lit "DELETE"].

(** What the peer of connection [client] receives. *)
Definition received (client : nat) (tr : list event) : list wire :=
  flat_map (fun e => match e with
                     | Wire c w => if Nat.eqb c client then [w] else []
                     | _ => []
                     end) tr.

(** The record the capture server keeps for a connection, if any. *)
Definition captured_record {host : Host} (self : request) : option pyval :=
  if existsb (pystr_eqb (command self)) capture_methods then
    match content_length self with
    | Some n =>
      match request_body self n with
      | Return body => Some (record_of (command self) self body)
      | Raise _ => None
      end
    | None => None
    end
  else None.

Definition captured_records {host : Host} (conns : list request) : list pyval :=
  flat_map (fun self => match captured_record self with
                        | Some r => [r]
                        | None => []
                        end) conns.

(** The reply of the mock server: the configured status and body. *)
Definition mock_reply (cfg : MockConfig) (data : pybytes) : list wire :=
  [send_response (mock_status cfg);
   send_header (lit "Content-type") (lit "application/json");
   end_headers;
   wfile_write data].

(** What [time.sleep] raises in [_respond], if anything: it is called for
    a positive delay only. *)
Definition mock_sleep_raises {host : Host} (cfg : MockConfig) : option exn :=
  if Qpositive (mock_delay cfg) then sleep_raises (mock_delay cfg) else None.

(** The trace line of the mock server for a request, or the error of
    [console.print]. *)
Definition mock_line {host : Host} (cfg : MockConfig) (client : nat) (self : request) : event :=
  if console_accepts (mock_request (command self) (path self) (mock_status cfg))
  then Console (mock_request (command self) (path self) (mock_status cfg))
  else HandleError client MarkupError.

(** What one request adds to the trace of the mock server. *)
Definition mock_events {host : Host} (cfg : MockConfig) (client : nat) (self : request) : list event :=
  if existsb (pystr_eqb (command self)) mock_methods then
    match mock_sleep_raises cfg with
    | Some e => [HandleError client e]
    | None =>
      (if Qpositive (mock_delay cfg) then [Sleep (mock_delay cfg)] else [])
      ++ match utf8_encode (mock_response cfg) with
         | Some data =>
           List.map (Wire client) (mock_reply cfg data) ++ [mock_line cfg client self]
         | None =>
           [Wire client (send_response (mock_status cfg));
            Wire client (send_header (lit "Content-type") (lit "application/json"));
            Wire client end_headers;
            HandleError client UnicodeEncodeError]
         end
    end
  else [Wire client (send_error 501)].

(** What one request adds to the trace of the capture server. *)
Definition capture_events {host : Host} (client : nat) (self : request) : list event :=
  if existsb (pystr_eqb (command self)) capture_methods then
    match content_length self with
    | None => [HandleError client ValueError]
    | Some n =>
      match request_body self n with
      | Raise e => [HandleError client e]
      | Return body =>
        if lines_print (command self) self body
        then capture_lines (command self) self body
             ++ List.map (Wire client) (response_sent (arrival self))
        else printed_lines (command self) self body ++ [HandleError client MarkupError]
      end
    end
  else [Wire client (send_error 501)].

(** The events of the connections [conns], numbered from [client], one
    connection after the other. *)
Fixpoint serve_events (events : nat -> request -> list event)
         (client : nat) (conns : list request) : list event :=
  match conns with
  | [] => []
  | self :: rest => events client self ++ serve_events events (S client) rest
  end.

(** Adding events to the trace of a process, records to its log. *)
Definition add_events (evs : list event) (p : process) : process :=
  {| REQUESTS_LOG := REQUESTS_LOG p; trace := trace p ++ evs; files := files p |}.

Definition add_records (records : list pyval) (p : process) : process :=
  {| REQUESTS_LOG := REQUESTS_LOG p ++ records; trace := trace p; files := files p |}.

(** The connection an event belongs to. *)
Definition event_client (e : event) : option nat :=
  match e with
  | Wire c _ => Some c
  | HandleError c _ => Some c
  | _ => None
  end.

(** The connections the server is working for, event by event. *)
Definition serving (tr : list event) : list nat :=
  flat_map (fun e => match event_client e with
                     | Some c => [c]
                     | None => []
                     end) tr.



(** ** Concrete scenarios *)

Module Scenario.

(** The text of a line that a client has sent. *)
Definition client_text (l : console_line) : pystr :=
  match l with
  | capture_request _ path => path
  | capture_preview body => body
  | mock_request _ path _ => path
  | _ => []
  end.

(** The text holds [[/], the start of a closing tag of rich's markup. *)
Fixpoint has_closing_tag (s : pystr) : bool :=
  match s with
  | [] => false
  | c :: r =>
    match r with
    | c' :: _ => ((c =? 91) && (c' =? 47)) || has_closing_tag r
    | [] => false
    end
  end.

(** A host for the examples.  Its console prints the lines in which the
    client's text holds no closing tag and refuses the others (as rich
    does when no tag is open); it has memory for a read of up to 2^31
    bytes; its [time.sleep] returns for every delay within the range of
    the clock. *)
#[global] Instance host : Host :=
  {| console_accepts := fun l => negb (has_closing_tag (client_text l));
     allocates := fun n => (n <=? 2 ^ 31)%Z;
     sleeps_through := fun _ => true |}.

(** [POST /hooks/test] with the body [{"order_id":42}]. *)
Definition order_body : pystr := [123; 34] ++ lit "order_id" ++ [34] ++ lit ":42}".

Definition post_order : request :=
  {| command := lit "POST";
     path := lit "/hooks/test";
     headers := [(lit "Host", lit "localhost:8080");
                 (lit "Content-Type", lit "application/json");
                 (lit "Content-Length", lit "15")];
     rfile := List.map byte_of_N order_body;
     arrival := lit "2024-05-01T12:00:00.000001" |}.

(** A request without a [Content-Length] header. *)
Definition get_status : request :=
  {| command := lit "GET";
     path := lit "/status?verbose=1";
     headers := [(lit "Host", lit "localhost:8080")];
     rfile := [];
     arrival := lit "2024-05-01T12:00:01.500000" |}.

(** A method for which neither handler class has a [do_*] method. *)
Definition options_probe : request :=
  {| command := lit "OPTIONS";
     path := lit "/hooks/test";
     headers := [(lit "Host", lit "localhost:8080")];
     rfile := [];
     arrival := lit "2024-05-01T12:00:02.000000" |}.

(** A [Content-Length] that is not a number. *)
Definition garbled_length : request :=
  {| command := lit "POST";
     path := lit "/hooks/test";
     headers := [(lit "Content-Length", lit "abc")];
     rfile := List.map byte_of_N order_body;
     arrival := lit "2024-05-01T12:00:03.000000" |}.

(** A body that is not UTF-8. *)
Definition binary_body : request :=
  {| command := lit "POST";
     path := lit "/hooks/proto";
     headers := [(lit "Content-Length", lit "2")];
     rfile := [xff; xfe];
     arrival := lit "2024-05-01T12:00:04.000000" |}.

Definition order_record : pyval :=
  RequestRecord (lit "2024-05-01T12:00:00.000001") (lit "POST") (lit "/hooks/test")
                [(lit "Host", PStr (lit "localhost:8080"));
                 (lit "Content-Type", PStr (lit "application/json"));
                 (lit "Content-Length", PStr (lit "15"))]
                order_body.

(** The mock of the design document: status 418, body [{"teapot":true}]. *)
Definition teapot_body : pystr := [123; 34] ++ lit "teapot" ++ [34] ++ lit ":true}".

Definition teapot (delay : Q) : MockConfig :=
  {| mock_port := 8080;
     mock_response := teapot_body;
     mock_status := 418;
     mock_delay := delay |}.


(** [str.upper] on ASCII text. *)
Definition ascii_upper (s : pystr) : pystr :=
  List.map (fun c => if (97 <=? c) && (c <=? 122) then c - 32 else c) s.

(** A clock on which every request takes a quarter of a second. *)
Definition clock_before (i : nat) : Q := inject_Z (Z.of_nat i).
Definition clock_after (i : nat) : Q := (inject_Z (Z.of_nat i) + (1 # 4))%Q.

Definition send (transport : nat -> http_call unit -> Z + pystr)
           (repeat : Z) (delay : Q) : M unit :=
  send_webhook unit ascii_upper clock_before clock_after transport
               (lit "http://localhost:9/hook") (lit "post") tt
               [(lit "Content-Type", lit "application/json")] repeat delay.

(** A host that answers every request with 200. *)
Definition reachable (i : nat) (call : http_call unit) : Z + pystr := inl 200%Z.

(** A host that refuses the first connection and answers from then on. *)
Definition flaky (i : nat) (call : http_call unit) : Z + pystr :=
  match i with
  | O => inr (lit "Connection refused")
  | S _ => inl 200%Z
  end.

(** A request whose path holds a closing tag of rich's markup. *)
Definition markup_path : request :=
  {| command := lit "GET";
     path := lit "/[/x]";
     headers := [(lit "Host", lit "localhost:8080")];
     rfile := [];
     arrival := lit "2024-05-01T12:00:08.000000" |}.

(** A two-byte text body announced with a [Content-Length] of 10^20. *)
Definition huge_length : request :=
  {| command := lit "POST";
     path := lit "/hooks/test";
     headers := [(lit "Content-Length", lit "100000000000000000000")];
     rfile := [x68; x69];
     arrival := lit "2024-05-01T12:00:09.000000" |}.

(** A request whose path and body are not ASCII. *)
Definition unicode_post : request :=
  {| command := lit "POST";
     path := [47; 233];
     headers := [(lit "Content-Length", lit "4")];
     rfile := [xf0; x9f; x98; x80];
     arrival := lit "2024-05-01T12:00:07.000000" |}.

End Scenario.

(** ** Vocabulary of the codec proofs *)

(** The characters a JSON value of the encoder can start with. *)
Inductive opens_value : N -> Prop :=
| opens_string : opens_value Json.QUOTE
| opens_object : opens_value Json.LBRACE
| opens_array : opens_value Json.LBRACKET.

(** The scanner calls the items of a list, and of a dict, cost. *)
Definition item_cost (l : list pyval) : nat :=
  list_sum (List.map (fun x => S (scan_cost x)) l).

Definition pair_cost (l : list (pystr * pyval)) : nat :=
  list_sum (List.map (fun kv => S (scan_cost (snd kv))) l).

Definition pairs_safe (l : list (pystr * pyval)) : bool :=
  forallb (fun kv => is_text (fst kv) && json_safe (snd kv)) l.

Definition ascii_only (s : pystr) : Prop := List.Forall (fun c => c < 128) s.




(** A request as [http.server] hands it over: the timestamp, the path and
    the header lines are text (the parser decodes them as ISO-8859-1). *)
Definition wire_text (self : request) : bool :=
  is_text (arrival self) && is_text (path self)
  && forallb (fun kv => is_text (fst kv) && is_text (snd kv)) (headers self).

(** ** [send]: the command line of [send_webhook]

    The lines of [send_webhook] before its first [console.print]: the
    [-H] options become the header dict, the [--data] option the JSON
    body. *)

(** [str.isspace] of a character. *)
Definition is_space (c : N) : bool :=
  ((9 <=? c) && (c <=? 13)) || ((0x1C <=? c) && (c <=? 0x20))
  || (c =? 0x85) || (c =? 0xA0) || (c =? 0x1680)
  || ((0x2000 <=? c) && (c <=? 0x200A))
  || (c =? 0x2028) || (c =? 0x2029) || (c =? 0x202F) || (c =? 0x205F) || (c =? 0x3000).

Fixpoint str_lstrip (s : pystr) : pystr :=
  match s with
  | c :: r => if is_space c then str_lstrip r else s
  | [] => []
  end.

(** [s.strip()]. *)
Definition str_strip (s : pystr) : pystr := rev (str_lstrip (rev (str_lstrip s))).

(** [s.split(sep, 1)]: the whole string when [sep] does not occur, else
    what precedes and what follows its first occurrence. *)
Fixpoint split_once (sep : N) (s : pystr) : list pystr :=
  match s with
  | [] => [[]]
  | c :: r =>
    if c =? sep then [[]; r]
    else match split_once sep r with
         | x :: t => (c :: x) :: t
         | [] => [[c]]
         end
  end.

(** The loop over the [-H] options: [key, value = h.split(":", 1)] raises
    [ValueError] when [h] has no colon. *)
Fixpoint add_header_options (header : list pystr) (headers : list (pystr * pystr))
  : M (list (pystr * pystr)) :=
  match header with
  | [] => ret headers
  | h :: rest =>
    match split_once 58 h with
    | [key; value] =>
      add_header_options rest (dict_set headers (str_strip key) (str_strip value))
    | _ => raise ValueError
    end
  end.

Section SendCommand.

(** As for the loop, with the decoder of [--data] ([json.loads], which
    raises a [ValueError]) and the default body, built from the time of
    the call. *)
Context {host : Host}.
Variable Body : Type.
Variable upper : pystr -> pystr.
Variable time_before time_after : nat -> Q.
Variable transport : nat -> http_call Body -> Z + pystr.
Variable json_loads : pystr -> option Body.
Variable default_body : Body.

Definition send_webhook_command (url method : pystr) (data : option pystr)
           (header : list pystr) (repeat : Z) (delay : Q) : M unit :=
  bind (add_header_options header [(lit "Content-Type", lit "application/json")])
       (fun headers =>
          bind (match data with
                | Some (c :: d) => of_option (json_loads (c :: d)) ValueError
                | _ => ret default_body
                end)
               (fun body =>
                  send_webhook Body upper time_before time_after transport
                               url method body headers repeat delay)).

End SendCommand.

(** ** [inspect]: the summary table

    What [inspect_requests] hands to [console.print]: the line with the
    number of saved requests, then the table with the cells given to
    [table.add_row], or the error line of its [except] branch (whose text
    is left out).  How rich renders a cell (its markup included) is not
    modelled. *)

(** A row of the table: index, method, path, time, body size. *)
Record inspect_row : Type := {
  row_index : nat;
  row_method : pystr;
  row_path : pystr;
  row_time : pystr;
  row_body_size : nat
}.

Inductive inspect_line : Type :=
| inspect_header (count : nat)
| inspect_table (rows : list inspect_row)
| inspect_error.

(** [len(o)]. *)
Definition py_len (o : pyval) : nat :=
  match o with
  | PStr s => length s
  | PList l => length l
  | PDict d => length d
  end.

(** The items [for x in o] goes through: the elements of a list, the keys
    of a dict, the characters of a string. *)
Definition py_iter (o : pyval) : list pyval :=
  match o with
  | PStr s => List.map (fun c => PStr [c]) s
  | PList l => l
  | PDict d => List.map (fun kv => PStr (fst kv)) d
  end.

(** [req.get('body', '')]. *)
Definition get_body (req : pyval) : pyval :=
  match py_getitem req (lit "body") with
  | Some b => b
  | None => PStr []
  end.

(** The arguments of one [table.add_row] call; [None] when a subscript
    raises or a cell is not a string. *)
Definition table_row (i : nat) (req : pyval) : option inspect_row :=
  match py_getitem req (lit "method"), py_getitem req (lit "path"),
        py_getitem req (lit "timestamp") with
  | Some (PStr m), Some (PStr p), Some (PStr t) =>
    Some {| row_index := i;
            row_method := m;
            row_path := firstn 30 p;
            row_time := firstn 8 (skipn 11 t);
            row_body_size := py_len (get_body req) |}
  | _, _, _ => None
  end.

(** [for i, req in enumerate(requests_data, i)]. *)
Fixpoint table_rows (i : nat) (reqs : list pyval) : option (list inspect_row) :=
  match reqs with
  | [] => Some []
  | req :: rest =>
    match table_row i req, table_rows (S i) rest with
    | Some row, Some rows => Some (row :: rows)
    | _, _ => None
    end
  end.

Definition inspect_requests (file_path : string) (p : process) : list inspect_line :=
  match inspect_requests_load file_path p with
  | None => [inspect_error]
  | Some requests_data =>
    inspect_header (py_len requests_data)
    :: match table_rows 1 (py_iter requests_data) with
       | Some rows => [inspect_table rows]
       | None => [inspect_error]
       end
  end.

(** ** Vocabulary of the further properties *)

(** A request the capture server keeps a record of. *)
Definition capturable {host : Host} (self : request) : bool :=
  match captured_record self with
  | Some _ => true
  | None => false
  end.

(** [time.sleep(d)] returns. *)
Definition sleep_returns {host : Host} (d : Q) : bool :=
  match sleep_raises d with
  | None => true
  | Some _ => false
  end.

(** The [time.sleep] calls a trace shows. *)
Definition sleeps (tr : list event) : list Q :=
  flat_map (fun e => match e with Sleep d => [d] | _ => [] end) tr.


(** A [-H] option with a colon in it. *)
Definition has_colon (h : pystr) : bool := existsb (fun c => c =? 58) h.

(** The header name a [-H] option sets. *)
Definition header_key (h : pystr) : pystr := str_strip (hd [] (split_once 58 h)).

(** The row [inspect] prints for the record with these fields. *)
Definition summary_row (i : nat) (timestamp method path body : pystr) : inspect_row :=
  {| row_index := i;
     row_method := method;
     row_path := firstn 30 path;
     row_time := firstn 8 (skipn 11 timestamp);
     row_body_size := length body |}.

(** * Properties *)

(** ** Bit arithmetic used by the codecs *)

Lemma lor_shiftl_add (a b k : N) : b < 2 ^ k -> N.lor (N.shiftl a k) b = a * 2 ^ k + b.
Proof.
  intros Hb.
  assert (Hdisj : N.land (N.shiftl a k) b = 0).
  { apply N.bits_inj. intros i. rewrite N.land_spec, N.bits_0.
    destruct (N.lt_ge_cases i k) as [Hlt | Hge].
    - rewrite N.shiftl_spec_low by exact Hlt. reflexivity.
    - destruct (N.eq_dec b 0) as [-> | Hnz].
      + rewrite N.bits_0. apply andb_false_r.
      + rewrite (N.bits_above_log2 b i).
        * apply andb_false_r.
        * apply N.lt_le_trans with k; [| exact Hge].
          apply N.log2_lt_pow2; lia. }
  rewrite <- N.lxor_lor by exact Hdisj.
  rewrite <- N.add_nocarry_lxor by exact Hdisj.
  rewrite N.shiftl_mul_pow2. reflexivity.
Qed.

Lemma lor_const_add (c k b : N) :
  b < 2 ^ k -> c mod 2 ^ k = 0 -> N.lor c b = c + b.
Proof.
  intros Hb Hc.
  assert (Hk : 2 ^ k <> 0) by (apply N.pow_nonzero; lia).
  pose proof (N.div_mod c (2 ^ k) Hk) as Hdiv.
  rewrite Hc, N.add_0_r in Hdiv.
  rewrite Hdiv at 1.
  rewrite N.mul_comm, <- N.shiftl_mul_pow2, lor_shiftl_add by exact Hb.
  rewrite Hdiv at 2. lia.
Qed.

(** ** JSON strings *)

Module JsonFacts.
Import Json.

Ltac to_arith :=
  change 0xF with (N.ones 4) in *; change 0x3FF with (N.ones 10) in *;
  change 0x3F with (N.ones 6) in *;
  rewrite ?N.land_ones, ?N.shiftr_div_pow2, ?N.shiftl_mul_pow2 in *;
  change (2 ^ 4) with 16 in *; change (2 ^ 6) with 64 in *;
  change (2 ^ 8) with 256 in *; change (2 ^ 10) with 1024 in *;
  change (2 ^ 12) with 4096 in *.

Lemma hexval_hexdigit (d : N) : d < 16 -> hexval (hexdigit d) = Some d.
Proof.
  intros Hd. unfold hexdigit, hexval.
  destruct (d <? 10) eqn:E.
  - apply N.ltb_lt in E.
    replace ((48 <=? 48 + d) && (48 + d <=? 57)) with true
      by (symmetry; apply andb_true_iff; split; apply N.leb_le; lia).
    f_equal. lia.
  - apply N.ltb_ge in E.
    replace ((48 <=? 87 + d) && (87 + d <=? 57)) with false
      by (symmetry; apply andb_false_iff; right; apply N.leb_gt; lia).
    replace ((97 <=? 87 + d) && (87 + d <=? 102)) with true
      by (symmetry; apply andb_true_iff; split; apply N.leb_le; lia).
    f_equal. lia.
Qed.

Lemma decode_hex4 (n : N) :
  n < 0x10000 ->
  exists h1 h2 h3 h4, hex4 n = [h1; h2; h3; h4] /\ decode_uXXXX h1 h2 h3 h4 = Some n.
Proof.
  intros Hn. unfold hex4. do 4 eexists. split; [reflexivity |].
  unfold decode_uXXXX.
  to_arith.
  assert (H16 : forall x, x mod 16 < 16) by (intros; apply N.mod_lt; lia).
  rewrite !hexval_hexdigit by apply H16.
  f_equal.
  rewrite !lor_shiftl_add by (change (2 ^ 4) with 16; apply H16).
  change (2 ^ 4) with 16.
  pose proof (N.div_mod n 16 ltac:(lia)).
  pose proof (N.div_mod (n / 16) 16 ltac:(lia)).
  pose proof (N.div_mod (n / 16 / 16) 16 ltac:(lia)).
  replace (n / 256) with (n / 16 / 16) by (rewrite N.Div0.div_div; reflexivity).
  replace (n / 4096) with (n / 16 / 16 / 16) by (rewrite !N.Div0.div_div; reflexivity).
  assert (n / 16 / 16 / 16 < 16).
  { rewrite !N.Div0.div_div. apply N.Div0.div_lt_upper_bound. simpl. lia. }
  rewrite (N.mod_small (n / 16 / 16 / 16) 16) by assumption.
  lia.
Qed.
Lemma scanstring_plain (c : N) (r : pystr) :
  needs_escape c = false -> scanstring (c :: r) = push c (scanstring r).
Proof.
  unfold needs_escape. intros H.
  apply orb_false_elim in H as [H H126].
  apply orb_false_elim in H as [H H32].
  apply orb_false_elim in H as [Hb Hq].
  cbn [scanstring]. rewrite Hq, Hb.
  change 0x20 with 32. rewrite H32. reflexivity.
Qed.

Lemma scanstring_simple_escape (e ch : N) (r : pystr) :
  e <> LOWER_U -> unescape e = Some ch ->
  scanstring (BACKSLASH :: e :: r) = push ch (scanstring r).
Proof.
  intros He Hu. cbn [scanstring].
  change (BACKSLASH =? QUOTE) with false. change (BACKSLASH =? BACKSLASH) with true.
  cbv iota. apply N.eqb_neq in He. rewrite He, Hu. reflexivity.
Qed.

Lemma scanstring_u (h1 h2 h3 h4 uni : N) (r : pystr) :
  decode_uXXXX h1 h2 h3 h4 = Some uni -> is_high_surrogate uni = false ->
  scanstring (BACKSLASH :: LOWER_U :: h1 :: h2 :: h3 :: h4 :: r)
  = push uni (scanstring r).
Proof.
  intros Hd Hs. cbn [scanstring].
  change (BACKSLASH =? QUOTE) with false. change (BACKSLASH =? BACKSLASH) with true.
  change (LOWER_U =? LOWER_U) with true.
  cbv iota. rewrite Hd, Hs. reflexivity.
Qed.

Lemma scanstring_pair (h1 h2 h3 h4 k1 k2 k3 k4 uni uni2 : N) (r : pystr) :
  decode_uXXXX h1 h2 h3 h4 = Some uni -> is_high_surrogate uni = true ->
  decode_uXXXX k1 k2 k3 k4 = Some uni2 -> is_low_surrogate uni2 = true ->
  scanstring (BACKSLASH :: LOWER_U :: h1 :: h2 :: h3 :: h4
                :: BACKSLASH :: LOWER_U :: k1 :: k2 :: k3 :: k4 :: r)
  = push (0x10000 + N.lor (N.shiftl (uni - 0xD800) 10) (uni2 - 0xDC00))
         (scanstring r).
Proof.
  intros Hd Hs Hd2 Hs2. cbn [scanstring].
  change (BACKSLASH =? QUOTE) with false. change (BACKSLASH =? BACKSLASH) with true.
  change (LOWER_U =? LOWER_U) with true.
  cbv iota. rewrite Hd, Hs. cbn [andb]. rewrite Hd2, Hs2. reflexivity.
Qed.

(** Every character of a string comes back from its escaped form. *)
Lemma scanstring_encode_char (c : N) (r : pystr) :
  scalar_value c = true ->
  scanstring (encode_char c ++ r) = push c (scanstring r).
Proof.
  intros Hc. unfold encode_char.
  destruct (needs_escape c) eqn:Hesc.
  2:{ cbn [app]. apply scanstring_plain. exact Hesc. }
  unfold escape_char.
  destruct (c =? BACKSLASH) eqn:E1.
  { apply N.eqb_eq in E1. subst c. reflexivity. }
  destruct (c =? QUOTE) eqn:E2.
  { apply N.eqb_eq in E2. subst c. reflexivity. }
  destruct (c =? 8) eqn:E3.
  { apply N.eqb_eq in E3. subst c. reflexivity. }
  destruct (c =? 12) eqn:E4.
  { apply N.eqb_eq in E4. subst c. reflexivity. }
  destruct (c =? 10) eqn:E5.
  { apply N.eqb_eq in E5. subst c. reflexivity. }
  destruct (c =? 13) eqn:E6.
  { apply N.eqb_eq in E6. subst c. reflexivity. }
  destruct (c =? 9) eqn:E7.
  { apply N.eqb_eq in E7. subst c. reflexivity. }
  unfold scalar_value, is_surrogate in Hc.
  apply andb_true_iff in Hc as [Hmax Hsur].
  apply N.ltb_lt in Hmax. apply negb_true_iff in Hsur.
  destruct (c <? 0x10000) eqn:E8.
  - apply N.ltb_lt in E8.
    destruct (decode_hex4 c E8) as (h1 & h2 & h3 & h4 & Hhex & Hdec).
    rewrite Hhex. cbn [app].
    apply scanstring_u; [exact Hdec |].
    unfold is_high_surrogate.
    apply andb_false_iff in Hsur as [H | H].
    + rewrite H. reflexivity.
    + apply N.leb_gt in H. apply andb_false_iff. right. apply N.leb_gt. lia.
  - apply N.ltb_ge in E8.
    set (n := c - 0x10000).
    assert (Hn : n < 0x100000) by (unfold n; lia).
    assert (Hhi : N.land (N.shiftr n 10) 0x3FF < 1024).
    { to_arith. apply N.mod_lt. lia. }
    assert (Hlo : N.land n 0x3FF < 1024).
    { to_arith. apply N.mod_lt. lia. }
    rewrite (lor_const_add 0xD800 10) by (exact Hhi || reflexivity).
    rewrite (lor_const_add 0xDC00 10) by (exact Hlo || reflexivity).
    set (hi := N.land (N.shiftr n 10) 0x3FF) in *.
    set (lo := N.land n 0x3FF) in *.
    destruct (decode_hex4 (0xD800 + hi) ltac:(lia)) as (h1 & h2 & h3 & h4 & Hhex & Hdec).
    destruct (decode_hex4 (0xDC00 + lo) ltac:(lia)) as (k1 & k2 & k3 & k4 & Hhex2 & Hdec2).
    rewrite Hhex, Hhex2. cbn [app].
    rewrite (scanstring_pair h1 h2 h3 h4 k1 k2 k3 k4 (0xD800 + hi) (0xDC00 + lo)).
    + f_equal.
      replace (0xD800 + hi - 0xD800) with hi by lia.
      replace (0xDC00 + lo - 0xDC00) with lo by lia.
      rewrite lor_shiftl_add by exact Hlo.
      subst hi lo. to_arith.
      rewrite (N.mod_small (n / 1024) 1024)
        by (apply N.Div0.div_lt_upper_bound; simpl; lia).
      pose proof (N.div_mod n 1024 ltac:(lia)). lia.
    + exact Hdec.
    + unfold is_high_surrogate. apply andb_true_iff.
      split; apply N.leb_le; lia.
    + exact Hdec2.
    + unfold is_low_surrogate. apply andb_true_iff.
      split; apply N.leb_le; lia.
Qed.

Lemma scanstring_encoded (s r : pystr) :
  forallb scalar_value s = true ->
  scanstring (flat_map encode_char s ++ QUOTE :: r) = Some (s, r).
Proof.
  induction s as [| c s IH]; intros Hs.
  - reflexivity.
  - cbn [forallb] in Hs. apply andb_true_iff in Hs as [Hc Hs].
    cbn [flat_map]. rewrite <- app_assoc.
    rewrite scanstring_encode_char by exact Hc.
    rewrite IH by exact Hs. reflexivity.
Qed.
(** *** Dicts rebuilt from their items *)

Lemma dict_set_fresh {V} (d : list (pystr * V)) (k : pystr) (v : V) :
  existsb (fun kv => pystr_eqb (fst kv) k) d = false ->
  dict_set d k v = d ++ [(k, v)].
Proof.
  induction d as [| [k' v'] d IH]; intros H.
  - reflexivity.
  - cbn [existsb fst] in H. apply orb_false_elim in H as [Hk Hd].
    cbn [dict_set]. rewrite Hk. rewrite IH by exact Hd. reflexivity.
Qed.

Lemma py_dict_from {V} (kvs acc : list (pystr * V)) :
  distinct_keys (List.map fst kvs) = true ->
  (forall kv, In kv acc -> existsb (pystr_eqb (fst kv)) (List.map fst kvs) = false) ->
  fold_left (fun d kv => dict_set d (fst kv) (snd kv)) kvs acc = acc ++ kvs.
Proof.
  revert acc. induction kvs as [| [k v] kvs IH]; intros acc Hd Hacc.
  - cbn. rewrite app_nil_r. reflexivity.
  - cbn [List.map fst distinct_keys] in Hd.
    apply andb_true_iff in Hd as [Hk Hd]. apply negb_true_iff in Hk.
    cbn [fold_left fst snd].
    rewrite dict_set_fresh.
    + rewrite IH.
      * rewrite <- app_assoc. reflexivity.
      * exact Hd.
      * intros kv Hin. apply in_app_or in Hin as [Hin | [<- | []]].
        -- specialize (Hacc kv Hin). cbn [List.map fst existsb] in Hacc.
           apply orb_false_elim in Hacc as [_ Hacc]. exact Hacc.
        -- exact Hk.
    + destruct (existsb (fun kv => pystr_eqb (fst kv) k) acc) eqn:E; [| reflexivity].
      apply existsb_exists in E as (kv & Hin & Heq).
      specialize (Hacc kv Hin). cbn [List.map fst existsb] in Hacc.
      rewrite Heq in Hacc. discriminate Hacc.
Qed.

Lemma py_dict_distinct {V} (kvs : list (pystr * V)) :
  distinct_keys (List.map fst kvs) = true -> py_dict kvs = kvs.
Proof.
  intros H. unfold py_dict. rewrite py_dict_from; [reflexivity | exact H |].
  intros kv [].
Qed.

(** *** Whitespace and the first character of a value *)

Lemma skip_ws_run (w : pystr) (c : N) (r : pystr) :
  forallb is_ws w = true -> is_ws c = false -> skip_ws (w ++ c :: r) = c :: r.
Proof.
  intros Hw Hc. induction w as [| a w IH].
  - cbn. rewrite Hc. reflexivity.
  - cbn [forallb] in Hw. apply andb_true_iff in Hw as [Ha Hw].
    cbn [app skip_ws]. rewrite Ha. apply IH. exact Hw.
Qed.

Lemma newline_indent_ws (indent : option nat) (level : nat) :
  forallb is_ws (newline_indent indent level) = true.
Proof.
  destruct indent as [n |]; [| reflexivity].
  cbn [newline_indent forallb]. change (is_ws NEWLINE) with true. cbn [andb].
  induction (n * level)%nat as [| m IH]; [reflexivity |].
  cbn [repeat forallb]. rewrite IH. reflexivity.
Qed.

Lemma skip_newline_indent (indent : option nat) (level : nat) (c : N) (r : pystr) :
  is_ws c = false -> skip_ws (newline_indent indent level ++ c :: r) = c :: r.
Proof. apply skip_ws_run, newline_indent_ws. Qed.

Lemma opens_value_not_ws (c : N) : opens_value c -> is_ws c = false.
Proof. intros []; reflexivity. Qed.

Lemma iterencode_head (indent : option nat) (level : nat) (v : pyval) :
  exists c r, iterencode indent level v = c :: r /\ opens_value c.
Proof.
  destruct v as [s | [| x xs] | [| [k v] kvs]]; cbn [iterencode encode_basestring_ascii];
    do 2 eexists; (split; [reflexivity | constructor]).
Qed.

Lemma skip_to_value (indent : option nat) (level level' : nat) (v : pyval) (r : pystr) :
  skip_ws (newline_indent indent level ++ iterencode indent level' v ++ r)
  = iterencode indent level' v ++ r.
Proof.
  destruct (iterencode_head indent level' v) as (c & t & -> & Hc).
  cbn [app]. apply skip_newline_indent, opens_value_not_ws, Hc.
Qed.
(** *** The scanner on encoded values *)

Lemma scan_once_string (fuel : nat) (r : pystr) :
  scan_once (S fuel) (QUOTE :: r)
  = match scanstring r with
    | Some (str, r') => Some (PStr str, r')
    | None => None
    end.
Proof. reflexivity. Qed.

Lemma scan_once_array (fuel : nat) (r : pystr) (c : N) (r' : pystr) :
  skip_ws r = c :: r' -> c <> RBRACKET ->
  scan_once (S fuel) (LBRACKET :: r)
  = match array_items fuel (c :: r') with
    | Some (values, r'') => Some (PList values, r'')
    | None => None
    end.
Proof.
  intros Hr Hc. apply N.eqb_neq in Hc.
  cbn [scan_once]. change (LBRACKET =? QUOTE) with false.
  change (LBRACKET =? LBRACE) with false. change (LBRACKET =? LBRACKET) with true.
  cbv iota. rewrite Hr, Hc. reflexivity.
Qed.

Lemma scan_once_object (fuel : nat) (r r' : pystr) :
  skip_ws r = QUOTE :: r' ->
  scan_once (S fuel) (LBRACE :: r)
  = match object_items fuel r' with
    | Some (pairs, r'') => Some (PDict (py_dict pairs), r'')
    | None => None
    end.
Proof.
  intros Hr.
  cbn [scan_once]. change (LBRACE =? QUOTE) with false.
  change (LBRACE =? LBRACE) with true.
  cbv iota. rewrite Hr. reflexivity.
Qed.

Lemma array_items_step (fuel : nat) (s : pystr) :
  array_items (S fuel) s
  = match scan_once fuel s with
    | None => None
    | Some (value, r) =>
      match skip_ws r with
      | c :: r' =>
        if c =? RBRACKET then Some ([value], r')
        else if c =? COMMA then
          match array_items fuel (skip_ws r') with
          | Some (values, r'') => Some (value :: values, r'')
          | None => None
          end
        else None
      | [] => None
      end
    end.
Proof. reflexivity. Qed.

Lemma object_items_step (fuel : nat) (s : pystr) :
  object_items (S fuel) s
  = match scanstring s with
    | None => None
    | Some (key, r) =>
      match skip_ws r with
      | c :: r1 =>
        if c =? COLON then
          match scan_once fuel (skip_ws r1) with
          | None => None
          | Some (value, r2) =>
            match skip_ws r2 with
            | c' :: r3 =>
              if c' =? RBRACE then Some ([(key, value)], r3)
              else if c' =? COMMA then
                match skip_ws r3 with
                | q :: r4 =>
                  if q =? QUOTE then
                    match object_items fuel r4 with
                    | Some (pairs, r5) => Some ((key, value) :: pairs, r5)
                    | None => None
                    end
                  else None
                | [] => None
                end
              else None
            | [] => None
            end
          end
        else None
      | [] => None
      end
    end.
Proof. reflexivity. Qed.

(** After the comma of [item_separator], only whitespace precedes the
    next item. *)
Lemma item_separator_shape (indent : option nat) :
  exists w, item_separator indent = COMMA :: w /\ forallb is_ws w = true.
Proof. destruct indent; eexists; (split; [reflexivity | reflexivity]). Qed.

Lemma iterencode_list (indent : option nat) (level : nat) (x : pyval) (xs : list pyval) :
  iterencode indent level (PList (x :: xs))
  = LBRACKET :: newline_indent indent (S level)
      ++ iterencode indent (S level) x ++ list_rest indent level xs
      ++ newline_indent indent level ++ [RBRACKET].
Proof. reflexivity. Qed.

Lemma iterencode_dict (indent : option nat) (level : nat)
      (k : pystr) (v : pyval) (kvs : list (pystr * pyval)) :
  iterencode indent level (PDict ((k, v) :: kvs))
  = LBRACE :: newline_indent indent (S level)
      ++ encode_basestring_ascii k ++ key_separator
      ++ iterencode indent (S level) v ++ dict_rest indent level kvs
      ++ newline_indent indent level ++ [RBRACE].
Proof. reflexivity. Qed.

Lemma skip_ws_stop (c : N) (r : pystr) : is_ws c = false -> skip_ws (c :: r) = c :: r.
Proof. intros H. cbn [skip_ws]. rewrite H. reflexivity. Qed.

Lemma skip_ws_value (w : pystr) (indent : option nat) (level : nat) (v : pyval) (r : pystr) :
  forallb is_ws w = true ->
  skip_ws (w ++ iterencode indent level v ++ r) = iterencode indent level v ++ r.
Proof.
  intros Hw. destruct (iterencode_head indent level v) as (c & t & -> & Hc).
  cbn [app]. apply skip_ws_run; [exact Hw | apply opens_value_not_ws, Hc].
Qed.

Ltac norm_app := repeat first [rewrite <- app_assoc | progress cbn [app]].

Lemma scan_encoded (indent : option nat) (fuel : nat) :
  (forall v level rest,
      json_safe v = true -> (scan_cost v <= fuel)%nat ->
      scan_once fuel (iterencode indent level v ++ rest) = Some (v, rest))
  /\ (forall x xs level rest,
      forallb json_safe (x :: xs) = true -> (item_cost (x :: xs) <= fuel)%nat ->
      array_items fuel (iterencode indent (S level) x ++ list_rest indent level xs
                          ++ newline_indent indent level ++ RBRACKET :: rest)
      = Some (x :: xs, rest))
  /\ (forall k v kvs level rest,
      pairs_safe ((k, v) :: kvs) = true -> (pair_cost ((k, v) :: kvs) <= fuel)%nat ->
      object_items fuel (flat_map encode_char k ++ QUOTE :: key_separator
                           ++ iterencode indent (S level) v ++ dict_rest indent level kvs
                           ++ newline_indent indent level ++ RBRACE :: rest)
      = Some ((k, v) :: kvs, rest)).
Proof.
  induction fuel as [| fuel (IHv & IHl & IHd)].
  - split; [| split].
    + intros [s | l | kvs] level rest _ Hc; cbn in Hc; lia.
    + intros x xs level rest _ Hc. cbn in Hc. lia.
    + intros k v kvs level rest _ Hc. cbn in Hc. lia.
  - split; [| split].
    + intros v level rest Hsafe Hcost.
      destruct v as [s | [| x xs] | [| [k v] kvs]].
      * cbn [iterencode encode_basestring_ascii app].
        rewrite scan_once_string. norm_app.
        rewrite scanstring_encoded by exact Hsafe. reflexivity.
      * reflexivity.
      * rewrite iterencode_list. cbn [app].
        norm_app.
        destruct (iterencode_head indent (S level) x) as (c & t & Hhead & Hc).
        rewrite (scan_once_array fuel _ c
                   (t ++ list_rest indent level xs ++ newline_indent indent level
                      ++ RBRACKET :: rest)).
        -- change (c :: t ++ ?z) with ((c :: t) ++ z). rewrite <- Hhead.
           rewrite IHl; [reflexivity | exact Hsafe |].
           unfold item_cost. cbn [scan_cost List.map list_sum fold_right] in Hcost |- *. lia.
        -- rewrite skip_to_value, Hhead. reflexivity.
        -- destruct Hc; discriminate.
      * reflexivity.
      * rewrite iterencode_dict. cbn [app encode_basestring_ascii].
        norm_app.
        rewrite (scan_once_object fuel _
                   (flat_map encode_char k ++ QUOTE :: key_separator
                      ++ iterencode indent (S level) v ++ dict_rest indent level kvs
                      ++ newline_indent indent level ++ RBRACE :: rest)).
        -- cbn [json_safe] in Hsafe. apply andb_true_iff in Hsafe as [Hkeys Hsafe].
           rewrite IHd; [| exact Hsafe |].
           ++ rewrite py_dict_distinct by exact Hkeys. reflexivity.
           ++ unfold pair_cost. cbn [scan_cost List.map list_sum fold_right snd] in Hcost |- *. lia.
        -- apply skip_newline_indent. reflexivity.
    + intros x xs level rest Hsafe Hcost.
      cbn [forallb] in Hsafe. apply andb_true_iff in Hsafe as [Hx Hxs].
      unfold item_cost in Hcost. cbn [List.map list_sum fold_right] in Hcost.
      rewrite array_items_step.
      rewrite IHv by (exact Hx || lia).
      destruct xs as [| y ys].
      * cbn [list_rest app]. rewrite skip_newline_indent by reflexivity.
        reflexivity.
      * cbn [list_rest].
        destruct (item_separator_shape indent) as (w & -> & Hw).
        norm_app. rewrite skip_ws_stop by reflexivity.
        change (COMMA =? RBRACKET) with false. change (COMMA =? COMMA) with true.
        cbv iota.
        rewrite (app_assoc w), skip_ws_value
          by (rewrite forallb_app, Hw, newline_indent_ws; reflexivity).
        fold (list_rest indent level).
        rewrite IHl; [reflexivity | exact Hxs |].
        unfold item_cost. cbn [List.map list_sum fold_right] in Hcost |- *. lia.
    + intros k v kvs level rest Hsafe Hcost.
      unfold pairs_safe in Hsafe. cbn [forallb fst snd] in Hsafe.
      apply andb_true_iff in Hsafe as [Hkv Hkvs].
      apply andb_true_iff in Hkv as [Hk Hv].
      unfold pair_cost in Hcost. cbn [List.map list_sum fold_right snd] in Hcost.
      rewrite object_items_step.
      rewrite scanstring_encoded by exact Hk.
      unfold key_separator. norm_app.
      rewrite skip_ws_stop by reflexivity.
      change (COLON =? COLON) with true. cbv iota.
      change (SPACE :: ?z) with ([SPACE] ++ z).
      rewrite (skip_ws_value [SPACE]) by reflexivity.
      rewrite IHv by (exact Hv || lia).
      destruct kvs as [| [k' v'] kvs].
      * cbn [dict_rest app]. rewrite skip_newline_indent by reflexivity.
        reflexivity.
      * cbn [dict_rest].
        destruct (item_separator_shape indent) as (w & -> & Hw).
        unfold encode_basestring_ascii. norm_app.
        rewrite skip_ws_stop by reflexivity.
        change (COMMA =? RBRACE) with false. change (COMMA =? COMMA) with true.
        cbv iota.
        rewrite (app_assoc w), skip_ws_run
          by (reflexivity || (rewrite forallb_app, Hw, newline_indent_ws; reflexivity)).
        change (QUOTE =? QUOTE) with true. cbv iota.
        fold (dict_rest indent level).
        rewrite IHd; [reflexivity | exact Hkvs |].
        unfold pair_cost. cbn [List.map list_sum fold_right snd] in Hcost |- *. lia.
Qed.
(** *** Enough fuel *)

Lemma pyval_ind (P : pyval -> Prop)
      (Hstr : forall s, P (PStr s))
      (Hlist : forall l, Forall P l -> P (PList l))
      (Hdict : forall kvs, Forall (fun kv => P (snd kv)) kvs -> P (PDict kvs)) :
  forall v, P v.
Proof.
  exact (fix F (v : pyval) : P v :=
           match v with
           | PStr s => Hstr s
           | PList l =>
             Hlist l ((fix G (l : list pyval) : Forall P l :=
                         match l with
                         | [] => @List.Forall_nil _ P
                         | x :: r => @List.Forall_cons _ P x r (F x) (G r)
                         end) l)
           | PDict kvs =>
             Hdict kvs ((fix G (l : list (pystr * pyval)) : Forall (fun kv => P (snd kv)) l :=
                           match l with
                           | [] => @List.Forall_nil _ (fun kv => P (snd kv))
                           | kv :: r => @List.Forall_cons _ (fun kv => P (snd kv)) kv r (F (snd kv)) (G r)
                           end) kvs)
           end).
Qed.

Lemma item_separator_length (indent : option nat) : (1 <= length (item_separator indent))%nat.
Proof. destruct indent; cbn; lia. Qed.

Lemma scan_cost_length (indent : option nat) (v : pyval) :
  forall level, (scan_cost v <= length (iterencode indent level v))%nat.
Proof.
  induction v as [s | l IH | kvs IH] using pyval_ind; intros level.
  - cbn. lia.
  - destruct l as [| x xs]; [cbn; lia |].
    rewrite iterencode_list. cbn [scan_cost List.map list_sum fold_right length].
    rewrite !length_app. cbn [length].
    inversion IH as [| ? ? Hx Hxs]; subst.
    specialize (Hx (S level)).
    assert (Hrest : (list_sum (List.map (fun x => S (scan_cost x)) xs)
                     <= length (list_rest indent level xs))%nat).
    { clear Hx IH. induction xs as [| y ys IHys]; [cbn; lia |].
      inversion Hxs as [| ? ? Hy Hys]; subst.
      cbn [List.map list_sum fold_right list_rest]. rewrite !length_app.
      specialize (Hy (S level)). specialize (IHys Hys).
      pose proof (item_separator_length indent).
      unfold list_sum in IHys. lia. }
    unfold list_sum in Hrest. lia.
  - destruct kvs as [| [k v] kvs]; [cbn; lia |].
    rewrite iterencode_dict. cbn [scan_cost List.map list_sum fold_right length snd].
    rewrite !length_app. cbn [length].
    inversion IH as [| ? ? Hv Hkvs]; subst.
    cbn [snd] in Hv. specialize (Hv (S level)).
    assert (Hrest : (list_sum (List.map (fun kv => S (scan_cost (snd kv))) kvs)
                     <= length (dict_rest indent level kvs))%nat).
    { clear Hv IH. induction kvs as [| [k' v'] kvs IHkvs]; [cbn; lia |].
      inversion Hkvs as [| ? ? Hv' Hkvs']; subst.
      cbn [List.map list_sum fold_right dict_rest snd]. rewrite !length_app.
      cbn [snd] in Hv'. specialize (Hv' (S level)). specialize (IHkvs Hkvs').
      pose proof (item_separator_length indent).
      unfold list_sum in IHkvs. lia. }
    unfold list_sum in Hrest. lia.
Qed.

(** [json.loads(json.dumps(v, indent=...)) == v]. *)
Lemma loads_dumps (indent : option nat) (v : pyval) :
  json_safe v = true -> loads (dumps indent v) = Some v.
Proof.
  intros Hsafe. unfold loads, dumps.
  destruct (iterencode_head indent 0 v) as (c & t & Hhead & Hc).
  rewrite Hhead at 2. rewrite skip_ws_stop by (apply opens_value_not_ws, Hc).
  rewrite <- Hhead.
  destruct (scan_encoded indent (S (length (iterencode indent 0 v)))) as (Hscan & _ & _).
  specialize (Hscan v 0%nat [] Hsafe).
  rewrite app_nil_r in Hscan. rewrite Hscan.
  - reflexivity.
  - pose proof (scan_cost_length indent v 0). lia.
Qed.
(** *** The encoder emits ASCII only *)

Lemma ascii_only_app (a b : pystr) : ascii_only a -> ascii_only b -> ascii_only (a ++ b).
Proof. intros Ha Hb. apply List.Forall_app. split; assumption. Qed.

Lemma ascii_only_cons (c : N) (s : pystr) : c < 128 -> ascii_only s -> ascii_only (c :: s).
Proof. intros Hc Hs. apply List.Forall_cons; assumption. Qed.

Lemma hexdigit_ascii (x : N) : hexdigit (N.land x 0xF) < 128.
Proof.
  assert (N.land x 0xF < 16) by (to_arith; apply N.mod_lt; lia).
  unfold hexdigit. destruct (N.land x 0xF <? 10); lia.
Qed.

Lemma hex4_ascii (n : N) : ascii_only (hex4 n).
Proof. unfold hex4. repeat apply ascii_only_cons; try apply hexdigit_ascii. constructor. Qed.

Lemma encode_char_ascii (c : N) : ascii_only (encode_char c).
Proof.
  unfold encode_char. destruct (needs_escape c) eqn:E.
  - unfold escape_char.
    repeat match goal with
           | |- context [if ?b then _ else _] => destruct b
           end;
      repeat first [apply hex4_ascii | apply hexdigit_ascii | apply ascii_only_app
                    | apply ascii_only_cons | constructor | reflexivity].
  - unfold needs_escape in E.
    apply orb_false_elim in E as [_ E]. apply N.ltb_ge in E.
    apply ascii_only_cons; [lia | constructor].
Qed.

Lemma encode_basestring_ascii_only (s : pystr) : ascii_only (encode_basestring_ascii s).
Proof.
  unfold encode_basestring_ascii.
  apply ascii_only_cons; [reflexivity |]. apply ascii_only_app.
  - induction s as [| c s IH]; [constructor |].
    cbn [flat_map]. apply ascii_only_app; [apply encode_char_ascii | exact IH].
  - apply ascii_only_cons; [reflexivity | constructor].
Qed.

Lemma newline_indent_ascii (indent : option nat) (level : nat) :
  ascii_only (newline_indent indent level).
Proof.
  destruct indent as [n |]; [| constructor].
  cbn [newline_indent]. apply ascii_only_cons; [reflexivity |].
  induction (n * level)%nat; [constructor |].
  cbn [repeat]. apply ascii_only_cons; [reflexivity | assumption].
Qed.

Lemma item_separator_ascii (indent : option nat) : ascii_only (item_separator indent).
Proof. destruct indent; repeat (apply ascii_only_cons; [reflexivity |]); constructor. Qed.

Lemma iterencode_ascii (indent : option nat) (v : pyval) :
  forall level, ascii_only (iterencode indent level v).
Proof.
  induction v as [s | l IH | kvs IH] using pyval_ind; intros level.
  - apply encode_basestring_ascii_only.
  - destruct l as [| x xs]; [repeat (apply ascii_only_cons; [reflexivity |]); constructor |].
    rewrite iterencode_list. inversion IH as [| ? ? Hx Hxs]; subst.
    apply ascii_only_cons; [reflexivity |].
    repeat apply ascii_only_app; try apply newline_indent_ascii; try apply Hx.
    + clear Hx IH. induction xs as [| y ys IHys]; [constructor |].
      inversion Hxs as [| ? ? Hy Hys]; subst. cbn [list_rest].
      repeat apply ascii_only_app; try apply newline_indent_ascii;
        try apply item_separator_ascii; try apply Hy. apply IHys, Hys.
    + apply ascii_only_cons; [reflexivity | constructor].
  - destruct kvs as [| [k v] kvs]; [repeat (apply ascii_only_cons; [reflexivity |]); constructor |].
    rewrite iterencode_dict. inversion IH as [| ? ? Hv Hkvs]; subst. cbn [snd] in Hv.
    apply ascii_only_cons; [reflexivity |].
    repeat apply ascii_only_app; try apply newline_indent_ascii; try apply Hv;
      try apply encode_basestring_ascii_only.
    + repeat (apply ascii_only_cons; [reflexivity |]); constructor.
    + clear Hv IH. induction kvs as [| [k' v'] kvs IHkvs]; [constructor |].
      inversion Hkvs as [| ? ? Hv' Hkvs']; subst. cbn [snd] in Hv'. cbn [dict_rest].
      repeat apply ascii_only_app; try apply newline_indent_ascii;
        try apply item_separator_ascii; try apply Hv';
        try apply encode_basestring_ascii_only.
      * repeat (apply ascii_only_cons; [reflexivity |]); constructor.
      * apply IHkvs, Hkvs'.
    + apply ascii_only_cons; [reflexivity | constructor].
Qed.

Lemma utf8_encode_ascii (s : pystr) :
  ascii_only s -> utf8_encode s = Some (List.map byte_of_N s).
Proof.
  induction 1 as [| c s Hc _ IH]; [reflexivity |].
  cbn [utf8_encode List.map]. unfold utf8_encode_cp.
  replace (c <? 0x80) with true by (symmetry; apply N.ltb_lt; exact Hc).
  rewrite IH. reflexivity.
Qed.

Lemma utf8_encode_dumps (indent : option nat) (v : pyval) :
  utf8_encode (dumps indent v) = Some (List.map byte_of_N (dumps indent v)).
Proof. apply utf8_encode_ascii, iterencode_ascii. Qed.
End JsonFacts.

(** ** The handlers, statement by statement *)

Ltac run_monad :=
  cbv beta iota delta [bind ret raise of_option wfile console_print emit
                       REQUESTS_LOG_append write_file exec try_except];
  cbn [fst snd REQUESTS_LOG trace files].

Lemma console_print_markup_run {host : Host} (l : console_line) (p : process) :
  console_print_markup l p
  = if console_accepts l then (Return tt, snd (emit (Console l) p)) else (Raise MarkupError, p).
Proof. unfold console_print_markup. destruct (console_accepts l); reflexivity. Qed.

Lemma time_sleep_run {host : Host} (d : Q) (p : process) :
  time_sleep d p
  = match sleep_raises d with
    | Some e => (Raise e, p)
    | None => (Return tt, snd (emit (Sleep d) p))
    end.
Proof. unfold time_sleep. destruct (sleep_raises d); reflexivity. Qed.

Lemma handle_request_run {host : Host} (method : pystr) (client : nat) (self : request)
      (p : process) :
  _handle_request method client self p
  = match content_length self with
    | None => (Raise ValueError, p)
    | Some n =>
      match request_body self n with
      | Raise e => (Raise e, p)
      | Return body =>
        if lines_print method self body
        then (Return tt, captured method client self body p)
        else (Raise MarkupError, recorded method self body p)
      end
    end.
Proof.
  assert (Hrest : forall body,
    bind (REQUESTS_LOG_append (record_of method self body))
         (fun _ =>
            bind (console_print_markup (capture_request method (path self)))
                 (fun _ =>
            bind (console_print (capture_sizes (length (headers self)) (length body)))
                 (fun _ =>
            bind (match body with
                  | [] => ret tt
                  | _ :: _ => console_print_markup (capture_preview body)
                  end)
                 (fun _ =>
            bind (wfile client (send_response 200))
                 (fun _ =>
            bind (wfile client (send_header (lit "Content-type") (lit "application/json")))
                 (fun _ =>
            bind (wfile client end_headers)
                 (fun _ =>
            bind (of_option (py_getitem (record_of method self body) (lit "timestamp")) KeyError)
                 (fun timestamp =>
            bind (of_option (utf8_encode
                               (Json.dumps None
                                  (PDict [(lit "status", PStr (lit "received"));
                                          (lit "timestamp", timestamp)])))
                            UnicodeEncodeError)
                 (fun data => wfile client (wfile_write data)))))))))) p
    = if lines_print method self body
      then (Return tt, captured method client self body p)
      else (Raise MarkupError, recorded method self body p)).
  { intros body.
    change (py_getitem (record_of method self body) (lit "timestamp"))
      with (Some (PStr (arrival self))).
    cbn [of_option].
    unfold lines_print, recorded, printed_lines, console_print_markup.
    destruct (console_accepts (capture_request method (path self)));
      [| run_monad; cbn [andb]; rewrite app_nil_r; reflexivity].
    cbn [andb].
    destruct body as [| c body];
      [| destruct (console_accepts (capture_preview (c :: body)))];
      run_monad; rewrite ?JsonFacts.utf8_encode_dumps;
      unfold captured, capture_lines, response_sent, ack_document;
      run_monad; cbn [List.map app length];
      repeat rewrite <- app_assoc; reflexivity. }
  unfold _handle_request, content_length, request_body.
  destruct (headers_get (headers self) (lit "Content-Length")) as [v |];
    [destruct (py_int v) as [n |]; [| reflexivity] |].
  - unfold bind at 1. cbn [of_option ret].
    unfold bind at 1.
    destruct (0 <? n)%Z; [| cbn [ret]; apply Hrest].
    unfold bind at 1, rfile_read.
    destruct (read_raises n) as [e |]; [reflexivity |].
    cbn [ret]. destruct (utf8_decode (body_bytes self n)) as [body |];
      cbn [of_option ret raise]; [apply Hrest | reflexivity].
  - unfold bind at 1. cbn [ret]. unfold bind at 1.
    change (0 <? 0)%Z with false. cbn [ret]. apply Hrest.
Qed.

Lemma request_body_return {host : Host} (self : request) (n : Z) (body : pystr) :
  request_body self n = Return body <->
  ((0 < n)%Z /\ read_raises n = None /\ utf8_decode (body_bytes self n) = Some body)
  \/ ((n <= 0)%Z /\ body = []).
Proof.
  unfold request_body. destruct (0 <? n)%Z eqn:Hn.
  - apply Z.ltb_lt in Hn. destruct (read_raises n) as [e |].
    + split; [discriminate | intros [(_ & H & _) | (H & _)]; [discriminate H | lia]].
    + destruct (utf8_decode (body_bytes self n)) as [b |].
      * split.
        -- intros H. injection H as <-. left. auto.
        -- intros [(_ & _ & H) | (H & _)]; [congruence | lia].
      * split; [discriminate | intros [(_ & _ & H) | (H & _)]; [discriminate H | lia]].
  - apply Z.ltb_ge in Hn. split.
    + intros H. injection H as <-. right. auto.
    + intros [(H & _) | (_ & ->)]; [lia | reflexivity].
Qed.

Lemma pystr_eqb_eq (a b : pystr) : pystr_eqb a b = true <-> a = b.
Proof.
  revert b. induction a as [| x a IH]; intros [| y b]; cbn [pystr_eqb]; split;
    try discriminate; try reflexivity.
  - intros H. apply andb_true_iff in H as [Hx Ha].
    apply N.eqb_eq in Hx. apply IH in Ha. congruence.
  - intros H. injection H as -> ->. rewrite N.eqb_refl. cbn [andb]. apply IH. reflexivity.
Qed.

Lemma pystr_eqb_refl (a : pystr) : pystr_eqb a a = true.
Proof. apply pystr_eqb_eq. reflexivity. Qed.

Lemma existsb_pystr_eqb (a : pystr) (l : list pystr) :
  existsb (pystr_eqb a) l = true <-> In a l.
Proof.
  rewrite existsb_exists. split.
  - intros (x & Hin & Heq). apply pystr_eqb_eq in Heq. subst. exact Hin.
  - intros Hin. exists a. split; [exact Hin | apply pystr_eqb_refl].
Qed.

Lemma WebhookHandler_defined {host : Host} (c : pystr) :
  In c capture_methods -> WebhookHandler c = Some (_handle_request c).
Proof.
  intros H. unfold capture_methods in H. cbn [In] in H.
  destruct H as [<- | [<- | [<- | [<- | [<- | []]]]]]; reflexivity.
Qed.

Lemma WebhookHandler_undefined {host : Host} (c : pystr) :
  ~ In c capture_methods -> WebhookHandler c = None.
Proof.
  intros H. unfold WebhookHandler.
  repeat match goal with
         | |- context [pystr_eqb c ?m] =>
           let E := fresh "E" in
           destruct (pystr_eqb c m) eqn:E;
             [apply pystr_eqb_eq in E; subst c; exfalso; apply H; cbn; tauto |]
         end.
  reflexivity.
Qed.

(** ** Records are well-formed values *)

Lemma header_value_safe (kv : pystr * pyval) :
  is_header_value kv = true -> is_text (fst kv) && json_safe (snd kv) = true.
Proof.
  unfold is_header_value. destruct kv as [k [v | l | d]]; cbn [fst snd json_safe];
    intros H; try exact H;
    apply andb_true_iff in H as [_ H]; discriminate H.
Qed.

Lemma header_values_safe (h : list (pystr * pyval)) :
  forallb is_header_value h = true ->
  forallb (fun kv => is_text (fst kv) && json_safe (snd kv)) h = true.
Proof.
  induction h as [| kv h IH]; [reflexivity |].
  cbn [forallb]. intros H. apply andb_true_iff in H as [Hkv Hh].
  rewrite (header_value_safe kv Hkv), (IH Hh). reflexivity.
Qed.

Lemma request_record_safe (v : pyval) : is_request_record v = true -> json_safe v = true.
Proof.
  intros H.
  destruct v as [s | l | [| [k1 [t | ? | ?]] [| [k2 [m | ? | ?]] [| [k3 [pa | ? | ?]]
    [| [k4 [? | ? | h]] [| [k5 [b | ? | ?]] [| ? ?]]]]]]]; try discriminate H.
  cbn [is_request_record] in H.
  repeat match type of H with
         | _ && _ = true => let H' := fresh "H" in apply andb_true_iff in H as [H H']
         end.
  repeat match goal with
         | E : pystr_eqb _ (lit _) = true |- _ => apply pystr_eqb_eq in E; subst
         end.
  cbn [json_safe List.map fst snd forallb].
  change (distinct_keys [lit "timestamp"; lit "method"; lit "path"; lit "headers"; lit "body"])
    with true.
  repeat match goal with
         | E : is_text _ = true |- _ => rewrite E; clear E
         end.
  match goal with E : distinct_keys _ = true |- _ => rewrite E end.
  match goal with E : forallb is_header_value h = true |- _ =>
    rewrite (header_values_safe h E)
  end.
  reflexivity.
Qed.

Lemma capture_log_safe (log : list pyval) : CaptureLog log -> json_safe (PList log) = true.
Proof.
  unfold CaptureLog. intros H. cbn [json_safe].
  induction log as [| v log IH]; [reflexivity |].
  cbn [forallb] in H |- *. apply andb_true_iff in H as [Hv H].
  rewrite (request_record_safe v Hv), (IH H). reflexivity.
Qed.

Lemma MockHandler_defined {host : Host} (cfg : MockConfig) (c : pystr) :
  In c mock_methods -> MockHandler cfg c = Some (_respond cfg).
Proof.
  intros H. unfold mock_methods in H. cbn [In] in H.
  destruct H as [<- | [<- | [<- | [<- | []]]]]; reflexivity.
Qed.

Lemma MockHandler_undefined {host : Host} (cfg : MockConfig) (c : pystr) :
  ~ In c mock_methods -> MockHandler cfg c = None.
Proof.
  intros H. unfold MockHandler.
  repeat match goal with
         | |- context [pystr_eqb c ?m] =>
           let E := fresh "E" in
           destruct (pystr_eqb c m) eqn:E;
             [apply pystr_eqb_eq in E; subst c; exfalso; apply H; cbn; tauto |]
         end.
  reflexivity.
Qed.

Lemma process_eq (p q : process) :
  REQUESTS_LOG p = REQUESTS_LOG q -> trace p = trace q -> files p = files q -> p = q.
Proof. destruct p, q. cbn. intros -> -> ->. reflexivity. Qed.

Lemma process_request_mock {host : Host} (cfg : MockConfig) (client : nat) (self : request) (p : process) :
  process_request (MockHandler cfg) client self p
  = add_events (mock_events cfg client self) p.
Proof.
  unfold process_request, handle_one_request, mock_events.
  destruct (existsb (pystr_eqb (command self)) mock_methods) eqn:Hin.
  - apply existsb_pystr_eqb in Hin.
    rewrite (MockHandler_defined cfg _ Hin).
    unfold _respond, mock_reply, add_events, mock_sleep_raises, mock_line,
      console_print_markup, time_sleep.
    destruct (Qpositive (mock_delay cfg));
      [destruct (sleep_raises (mock_delay cfg)) |];
      destruct (utf8_encode (mock_response cfg));
      try destruct (console_accepts (mock_request (command self) (path self) (mock_status cfg)));
      run_monad; cbn [List.map app]; repeat rewrite <- app_assoc; reflexivity.
  - rewrite MockHandler_undefined.
    + reflexivity.
    + intros H. apply existsb_pystr_eqb in H. congruence.
Qed.

Lemma process_request_capture {host : Host} (client : nat) (self : request) (p : process) :
  process_request WebhookHandler client self p
  = add_events (capture_events client self)
      (add_records (match captured_record self with Some r => [r] | None => [] end) p).
Proof.
  unfold process_request, handle_one_request, capture_events, captured_record.
  destruct (existsb (pystr_eqb (command self)) capture_methods) eqn:Hin.
  - apply existsb_pystr_eqb in Hin.
    rewrite (WebhookHandler_defined _ Hin), handle_request_run.
    destruct (content_length self) as [n |];
      [destruct (request_body self n) as [body | e];
       [destruct (lines_print (command self) self body) |] |];
      apply process_eq;
      cbn [emit snd add_events add_records captured recorded REQUESTS_LOG trace files];
      rewrite ?app_nil_r, <- ?app_assoc; reflexivity.
  - rewrite WebhookHandler_undefined.
    + apply process_eq; cbn; rewrite ?app_nil_r; reflexivity.
    + intros H. apply existsb_pystr_eqb in H. congruence.
Qed.

Lemma serve_from_mock {host : Host} (cfg : MockConfig) (conns : list request) :
  forall client p,
    serve_from (MockHandler cfg) client conns p
    = add_events (serve_events (mock_events cfg) client conns) p.
Proof.
  induction conns as [| self rest IH]; intros client p.
  - apply process_eq; cbn; rewrite ?app_nil_r; reflexivity.
  - cbn [serve_from serve_events]. rewrite process_request_mock, IH.
    apply process_eq; cbn; rewrite ?app_assoc; reflexivity.
Qed.

Lemma serve_from_capture {host : Host} (conns : list request) :
  forall client p,
    serve_from WebhookHandler client conns p
    = add_events (serve_events capture_events client conns)
        (add_records (captured_records conns) p).
Proof.
  induction conns as [| self rest IH]; intros client p.
  - apply process_eq; cbn; rewrite ?app_nil_r; reflexivity.
  - cbn [serve_from serve_events captured_records flat_map].
    rewrite process_request_capture, IH.
    apply process_eq; cbn [add_events add_records REQUESTS_LOG trace files];
      rewrite ?app_assoc; reflexivity.
Qed.

(** ** The sender, attempt by attempt *)

Section SenderFacts.

Context {host : Host}.
Variable Body : Type.
Variable upper : pystr -> pystr.
Variable time_before time_after : nat -> Q.
Variable transport : nat -> http_call Body -> Z + pystr.
Variables (url method : pystr) (body : Body) (headers : list (pystr * pystr)).
Variables (repeat : Z) (delay : Q).

#[local] Abbreviation once :=
  (send_once Body upper time_before time_after transport
             url method body headers repeat delay).
#[local] Abbreviation events_of :=
  (attempt_events Body upper time_before time_after transport
                  url method body headers repeat delay).

Lemma send_once_run (i : nat) (p : process) :
  once i p = (Return tt, add_events (events_of i) p).
Proof.
  unfold send_once, attempt_events, the_call, perform.
  repeat match goal with
         | |- context [pystr_eqb (upper method) ?m] => destruct (pystr_eqb (upper method) m)
         end;
    match goal with
    | |- context [transport i ?c] => destruct (transport i c) as [code | msg]
    end;
    try destruct ((1 <? repeat)%Z && (Z.of_nat i <? repeat - 1)%Z && Qpositive delay);
    unfold time_sleep; try destruct (sleep_raises delay);
    run_monad; unfold add_events; cbn [app]; repeat rewrite <- app_assoc; reflexivity.
Qed.

Lemma for_range_run (n : nat) :
  forall start p,
    for_range n start once p
    = (Return tt, add_events (flat_map events_of (seq start n)) p).
Proof.
  induction n as [| n IH]; intros start p.
  - cbn. unfold ret, add_events. rewrite app_nil_r. destruct p; reflexivity.
  - cbn [for_range seq flat_map]. unfold bind at 1.
    rewrite send_once_run, IH. f_equal.
    unfold add_events. cbn [REQUESTS_LOG trace files].
    rewrite <- app_assoc. reflexivity.
Qed.

Lemma send_webhook_run (p : process) :
  send_webhook Body upper time_before time_after transport
               url method body headers repeat delay p
  = (Return tt,
     add_events (Console (send_banner method url)
                   :: flat_map events_of (seq 0 (Z.to_nat repeat))
                   ++ (if (1 <? repeat)%Z then [Console (send_summary repeat)] else []))
                p).
Proof.
  unfold send_webhook. unfold bind at 1. unfold console_print at 1, emit at 1.
  unfold bind at 1. rewrite for_range_run.
  destruct (1 <? repeat)%Z; run_monad; unfold add_events;
    cbn [REQUESTS_LOG trace files app]; repeat rewrite <- app_assoc;
    cbn [app]; rewrite ?app_nil_r; reflexivity.
Qed.




End SenderFacts.

(** ** The servers, connection by connection *)


Lemma received_app (client : nat) (a b : list event) :
  received client (a ++ b) = received client a ++ received client b.
Proof. unfold received. apply flat_map_app. Qed.

Lemma received_own (client : nat) (ws : list wire) :
  received client (List.map (Wire client) ws) = ws.
Proof.
  induction ws as [| w ws IH]; [reflexivity |].
  cbn [List.map received flat_map]. rewrite Nat.eqb_refl. cbn [app].
  f_equal. exact IH.
Qed.

Lemma received_capture_lines (client : nat) (method : pystr) (self : request) (body : pystr) :
  received client (capture_lines method self body) = [].
Proof. unfold capture_lines. destruct body; reflexivity. Qed.


Lemma received_other (k : nat) (tr : list event) :
  (forall c, In c (serving tr) -> c <> k) -> received k tr = [].
Proof.
  induction tr as [| e tr IH]; [reflexivity |].
  intros Hother. cbn [received flat_map].
  fold (received k tr). rewrite IH.
  - destruct e as [l | c w | d | c e | i]; try reflexivity.
    destruct (Nat.eqb c k) eqn:E; [| reflexivity].
    apply Nat.eqb_eq in E. exfalso. apply (Hother c); [left; reflexivity | exact E].
  - intros c Hc. apply Hother. unfold serving. cbn [flat_map].
    apply in_or_app. right. exact Hc.
Qed.





Lemma start_listener_run {host : Host} (port : Z) (save : option string) (conns : list request) (p : process) :
  exists saved,
    REQUESTS_LOG (start_listener port save conns p) = REQUESTS_LOG p ++ captured_records conns
    /\ trace (start_listener port save conns p)
       = trace p ++ Console (listener_banner port)
           :: serve_events capture_events 0 conns
           ++ Console listener_stopping :: List.map Console saved.
Proof.
  unfold start_listener, serve_forever. rewrite serve_from_capture.
  unfold save_requests.
  match goal with |- context [save_wanted save ?l] => destruct (save_wanted save l) as [file |] end.
  - eexists [_]. run_monad. cbn [add_events add_records REQUESTS_LOG trace files].
    split; [reflexivity |]. rewrite <- !app_assoc. reflexivity.
  - exists []. run_monad. cbn [add_events add_records REQUESTS_LOG trace files].
    split; [reflexivity |]. rewrite <- !app_assoc. reflexivity.
Qed.















(** ** Every log the capture server builds is a CaptureLog *)

Lemma cont_low_bits (n : N) :
  is_cont n = true -> N.land n 0x3F = n - 0x80.
Proof.
  unfold is_cont. intros H. apply andb_true_iff in H as [Hlo Hhi].
  apply N.leb_le in Hlo, Hhi.
  change 0x3F with (N.ones 6). rewrite N.land_ones. change (2 ^ 6) with 64.
  replace n with (n - 0x80 + 2 * 64) at 1 by lia.
  rewrite N.Div0.mod_add. apply N.mod_small. lia.
Qed.

Lemma lead_low_bits (n base k : N) :
  base mod 2 ^ k = 0 -> base <= n -> n < base + 2 ^ k ->
  N.land n (N.ones k) = n - base.
Proof.
  intros Hbase Hlo Hhi. rewrite N.land_ones.
  assert (Hk : 2 ^ k <> 0) by (apply N.pow_nonzero; discriminate).
  pose proof (N.div_mod base (2 ^ k) Hk) as Hdiv. rewrite Hbase, N.add_0_r in Hdiv.
  replace n with (n - base + base / 2 ^ k * 2 ^ k) at 1 by lia.
  rewrite N.Div0.mod_add. apply N.mod_small. lia.
Qed.

Lemma utf8_decode_text_upto (n : nat) :
  forall bs s, (length bs <= n)%nat -> utf8_decode bs = Some s -> is_text s = true.
Proof.
  induction n as [| n IH]; intros bs s Hlen Hdec.
  - destruct bs; [| cbn in Hlen; lia]. injection Hdec as <-. reflexivity.
  - destruct bs as [| b0 r0]; [injection Hdec as <-; reflexivity |].
    cbn [utf8_decode] in Hdec. cbv zeta in Hdec. cbn [length] in Hlen.
    assert (Hstep : forall c r s', (length r <= n)%nat -> scalar_value c = true ->
                                   cons_opt c (utf8_decode r) = Some s' -> is_text s' = true).
    { intros c r s' Hr Hc Hs. destruct (utf8_decode r) as [t |] eqn:Ht; [| discriminate Hs].
      injection Hs as <-. unfold is_text. cbn [forallb]. rewrite Hc.
      apply (IH r t Hr Ht). }
    set (n0 := Byte.to_N b0) in *.
    destruct (n0 <? 0x80) eqn:E1.
    { apply N.ltb_lt in E1. apply (Hstep n0 r0 s); [lia | | exact Hdec].
      unfold scalar_value, is_surrogate. apply andb_true_iff. split.
      - apply N.ltb_lt. lia.
      - apply negb_true_iff, andb_false_iff. left. apply N.leb_gt. lia. }
    destruct ((0xC2 <=? n0) && (n0 <=? 0xDF)) eqn:E2.
    { apply andb_true_iff in E2 as [Ha Hb]. apply N.leb_le in Ha, Hb.
      destruct r0 as [| b1 r1]; [discriminate Hdec |].
      destruct (is_cont (Byte.to_N b1)) eqn:C1; [| discriminate Hdec].
      cbn [length] in Hlen.
      apply (Hstep _ r1 s) in Hdec; [exact Hdec | lia |].
      rewrite (cont_low_bits _ C1).
      change 0x1F with (N.ones 5). rewrite (lead_low_bits n0 0xC0 5) by (reflexivity || lia).
      unfold is_cont in C1. apply andb_true_iff in C1 as [C1a C1b].
      apply N.leb_le in C1a, C1b.
      rewrite lor_shiftl_add by (change (2 ^ 6) with 64; lia).
      change (2 ^ 6) with 64.
      unfold scalar_value, is_surrogate. apply andb_true_iff. split.
      - apply N.ltb_lt. lia.
      - apply negb_true_iff, andb_false_iff. left. apply N.leb_gt. lia. }
    destruct ((0xE0 <=? n0) && (n0 <=? 0xEF)) eqn:E3.
    { apply andb_true_iff in E3 as [Ha Hb]. apply N.leb_le in Ha, Hb.
      destruct r0 as [| b1 [| b2 r2]]; try discriminate Hdec.
      match type of Hdec with (if ?c then _ else _) = _ => destruct c eqn:C end;
        [| discriminate Hdec].
      apply andb_true_iff in C as [C Hed]. apply andb_true_iff in C as [C He0].
      apply andb_true_iff in C as [C1 C2].
      cbn [length] in Hlen.
      apply (Hstep _ r2 s) in Hdec; [exact Hdec | lia |].
      rewrite (cont_low_bits _ C1), (cont_low_bits _ C2).
      change 0x0F with (N.ones 4). rewrite (lead_low_bits n0 0xE0 4) by (reflexivity || lia).
      unfold is_cont in C1, C2.
      apply andb_true_iff in C1 as [C1a C1b]. apply andb_true_iff in C2 as [C2a C2b].
      apply N.leb_le in C1a, C1b, C2a, C2b.
      rewrite (lor_shiftl_add _ _ 6) by (change (2 ^ 6) with 64; lia).
      rewrite lor_shiftl_add by (change (2 ^ 6) with 64; change (2 ^ 12) with 4096; lia).
      change (2 ^ 6) with 64. change (2 ^ 12) with 4096.
      apply negb_true_iff, andb_false_iff in Hed.
      unfold scalar_value, is_surrogate. apply andb_true_iff. split.
      - apply N.ltb_lt. lia.
      - apply negb_true_iff, andb_false_iff.
        assert (Hed' : n0 <> 0xED \/ Byte.to_N b1 <= 0x9F).
        { destruct Hed as [Hed | Hed];
            [left; apply N.eqb_neq, Hed | right; apply N.ltb_ge, Hed]. }
        destruct (N.lt_ge_cases n0 0xEE); [left | right]; apply N.leb_gt; lia. }
    destruct ((0xF0 <=? n0) && (n0 <=? 0xF4)) eqn:E4; [| discriminate Hdec].
    apply andb_true_iff in E4 as [Ha Hb]. apply N.leb_le in Ha, Hb.
    destruct r0 as [| b1 [| b2 [| b3 r3]]]; try discriminate Hdec.
    match type of Hdec with (if ?c then _ else _) = _ => destruct c eqn:C end;
      [| discriminate Hdec].
    apply andb_true_iff in C as [C Hf4]. apply andb_true_iff in C as [C Hf0].
    apply andb_true_iff in C as [C C3]. apply andb_true_iff in C as [C1 C2].
    cbn [length] in Hlen.
    apply (Hstep _ r3 s) in Hdec; [exact Hdec | lia |].
    rewrite (cont_low_bits _ C1), (cont_low_bits _ C2), (cont_low_bits _ C3).
    change 0x07 with (N.ones 3). rewrite (lead_low_bits n0 0xF0 3) by (reflexivity || lia).
    unfold is_cont in C1, C2, C3.
    apply andb_true_iff in C1 as [C1a C1b]. apply andb_true_iff in C2 as [C2a C2b].
    apply andb_true_iff in C3 as [C3a C3b].
    apply N.leb_le in C1a, C1b, C2a, C2b, C3a, C3b.
    rewrite (lor_shiftl_add _ _ 6) by (change (2 ^ 6) with 64; lia).
    rewrite (lor_shiftl_add _ _ 12) by (change (2 ^ 6) with 64; change (2 ^ 12) with 4096; lia).
    rewrite lor_shiftl_add
      by (change (2 ^ 6) with 64; change (2 ^ 12) with 4096; change (2 ^ 18) with 262144; lia).
    change (2 ^ 6) with 64. change (2 ^ 12) with 4096. change (2 ^ 18) with 262144.
    apply negb_true_iff, andb_false_iff in Hf4.
    apply negb_true_iff, andb_false_iff in Hf0.
    unfold scalar_value, is_surrogate. apply andb_true_iff. split.
    + apply N.ltb_lt. destruct Hf4 as [Hf4 | Hf4].
      * apply N.eqb_neq in Hf4. lia.
      * apply N.ltb_ge in Hf4. lia.
    + apply negb_true_iff, andb_false_iff. right. apply N.leb_gt.
      destruct Hf0 as [Hf0 | Hf0].
      * apply N.eqb_neq in Hf0. lia.
      * apply N.ltb_ge in Hf0. lia.
Qed.

Lemma utf8_decode_text (bs : pybytes) (s : pystr) :
  utf8_decode bs = Some s -> is_text s = true.
Proof. apply (utf8_decode_text_upto (length bs)). lia. Qed.

Lemma existsb_keys {V} (k : pystr) (d : list (pystr * V)) :
  existsb (fun kv => pystr_eqb (fst kv) k) d
  = existsb (fun x => pystr_eqb x k) (List.map fst d).
Proof.
  induction d as [| kv d IH]; [reflexivity |]. cbn [existsb List.map]. rewrite IH. reflexivity.
Qed.

Lemma dict_set_present {V} (d : list (pystr * V)) (k : pystr) (v : V) :
  existsb (fun kv => pystr_eqb (fst kv) k) d = true ->
  List.map fst (dict_set d k v) = List.map fst d.
Proof.
  induction d as [| [k' v'] d IH]; [discriminate |].
  cbn [existsb fst dict_set]. destruct (pystr_eqb k' k); [reflexivity |].
  cbn [orb List.map fst]. intros H. rewrite (IH H). reflexivity.
Qed.

Lemma distinct_keys_snoc (l : list pystr) (k : pystr) :
  distinct_keys (l ++ [k])
  = distinct_keys l && negb (existsb (fun x => pystr_eqb x k) l).
Proof.
  induction l as [| a l IH]; [reflexivity |].
  cbn [app distinct_keys existsb]. rewrite IH, existsb_app. cbn [existsb].
  rewrite orb_false_r.
  destruct (existsb (pystr_eqb a) l), (pystr_eqb a k), (distinct_keys l),
    (existsb (fun x => pystr_eqb x k) l); reflexivity.
Qed.

Lemma dict_set_distinct {V} (d : list (pystr * V)) (k : pystr) (v : V) :
  distinct_keys (List.map fst d) = true ->
  distinct_keys (List.map fst (dict_set d k v)) = true.
Proof.
  intros Hd. destruct (existsb (fun kv => pystr_eqb (fst kv) k) d) eqn:E.
  - rewrite dict_set_present by exact E. exact Hd.
  - rewrite JsonFacts.dict_set_fresh by exact E.
    rewrite map_app. cbn [List.map fst]. rewrite distinct_keys_snoc, Hd.
    rewrite <- existsb_keys, E. reflexivity.
Qed.

Lemma dict_set_forallb {V} (P : pystr * V -> bool) (d : list (pystr * V)) (k : pystr) (v : V) :
  forallb P d = true -> P (k, v) = true -> forallb P (dict_set d k v) = true.
Proof.
  intros Hd Hkv. induction d as [| [k' v'] d IH]; cbn [dict_set forallb].
  - rewrite Hkv. reflexivity.
  - cbn [forallb] in Hd. apply andb_true_iff in Hd as [Hk' Hd].
    destruct (pystr_eqb k' k) eqn:E; cbn [forallb].
    + apply pystr_eqb_eq in E. subst k'. rewrite Hkv, Hd. reflexivity.
    + rewrite Hk', (IH Hd). reflexivity.
Qed.

Lemma py_dict_invariant {V} (P : pystr * V -> bool) (pairs : list (pystr * V)) :
  forallb P pairs = true ->
  distinct_keys (List.map fst (py_dict pairs)) = true /\ forallb P (py_dict pairs) = true.
Proof.
  unfold py_dict.
  assert (H : forall acc,
             distinct_keys (List.map fst acc) = true -> forallb P acc = true ->
             forallb P pairs = true ->
             distinct_keys
               (List.map fst (fold_left (fun d kv => dict_set d (fst kv) (snd kv)) pairs acc))
             = true
             /\ forallb P (fold_left (fun d kv => dict_set d (fst kv) (snd kv)) pairs acc)
                = true).
  { induction pairs as [| [k v] pairs IH]; intros acc Hacc HP Hpairs.
    - split; assumption.
    - cbn [forallb] in Hpairs. apply andb_true_iff in Hpairs as [Hkv Hpairs].
      cbn [fold_left fst snd]. apply IH.
      + apply dict_set_distinct, Hacc.
      + apply dict_set_forallb; assumption.
      + exact Hpairs. }
  intros Hpairs. apply H; [reflexivity | reflexivity | exact Hpairs].
Qed.

Lemma headers_get_value (h : list (pystr * pystr)) (name v : pystr) :
  headers_get h name = Some v -> exists k, In (k, v) h.
Proof.
  induction h as [| [k' v'] h IH]; [discriminate |].
  cbn [headers_get]. destruct (pystr_eqb (lower k') (lower name)).
  - intros H. injection H as <-. exists k'. left. reflexivity.
  - intros H. destruct (IH H) as [k Hk]. exists k. right. exact Hk.
Qed.

Lemma dict_of_headers_record (h : list (pystr * pystr)) :
  forallb (fun kv => is_text (fst kv) && is_text (snd kv)) h = true ->
  distinct_keys (List.map fst (dict_of_headers h)) = true
  /\ forallb is_header_value (dict_of_headers h) = true.
Proof.
  intros Hh. unfold dict_of_headers. apply py_dict_invariant.
  apply forallb_forall. intros [k v] Hin.
  apply in_map_iff in Hin as ([k0 v0] & Heq & Hin0). cbn [fst] in Heq.
  injection Heq as <- <-.
  rewrite forallb_forall in Hh.
  pose proof (Hh _ Hin0) as Hkv. cbn [fst snd] in Hkv.
  apply andb_true_iff in Hkv as [Hk _].
  unfold is_header_value. cbn [fst snd]. rewrite Hk. cbn [andb].
  destruct (headers_get h k0) as [w |] eqn:Hget; [| reflexivity].
  destruct (headers_get_value h k0 w Hget) as [k1 Hin1].
  specialize (Hh _ Hin1). cbn [fst snd] in Hh.
  apply andb_true_iff in Hh as [_ Hw]. exact Hw.
Qed.

Lemma record_of_is_record (method : pystr) (self : request) (body : pystr) :
  wire_text self = true -> is_text method = true -> is_text body = true ->
  is_request_record (record_of method self body) = true.
Proof.
  unfold wire_text. intros Hself Hm Hb.
  apply andb_true_iff in Hself as [Hself Hh]. apply andb_true_iff in Hself as [Ha Hp].
  destruct (dict_of_headers_record _ Hh) as [Hkeys Hvalues].
  unfold record_of, RequestRecord. cbn [is_request_record].
  rewrite !pystr_eqb_refl, Ha, Hm, Hp, Hb, Hkeys, Hvalues. reflexivity.
Qed.

Lemma captured_record_is_record {host : Host} (self : request) (r : pyval) :
  wire_text self = true -> captured_record self = Some r -> is_request_record r = true.
Proof.
  intros Hself. unfold captured_record.
  destruct (existsb (pystr_eqb (command self)) capture_methods) eqn:Hin; [| discriminate].
  destruct (content_length self) as [n |]; [| discriminate].
  destruct (request_body self n) as [body | e] eqn:Hbody; [| discriminate].
  intros H. injection H as <-.
  apply record_of_is_record; [exact Hself | |].
  - apply existsb_pystr_eqb in Hin. unfold capture_methods in Hin. cbn [In] in Hin.
    destruct Hin as [<- | [<- | [<- | [<- | [<- | []]]]]]; reflexivity.
  - apply request_body_return in Hbody as [(_ & _ & Hbody) | (_ & ->)].
    + exact (utf8_decode_text _ _ Hbody).
    + reflexivity.
Qed.

Lemma captured_records_capture_log {host : Host} (conns : list request) :
  forallb wire_text conns = true -> CaptureLog (captured_records conns).
Proof.
  unfold CaptureLog. induction conns as [| self rest IH]; [reflexivity |].
  cbn [forallb]. intros H. apply andb_true_iff in H as [Hself Hrest].
  change (captured_records (self :: rest))
    with (match captured_record self with Some r => [r] | None => [] end
          ++ captured_records rest).
  rewrite forallb_app, (IH Hrest), andb_true_r.
  destruct (captured_record self) as [r |] eqn:Hr; [| reflexivity].
  cbn [forallb]. rewrite (captured_record_is_record self r Hself Hr). reflexivity.
Qed.

(** Every listener run keeps the log a CaptureLog. *)
Lemma served_log_is_capture_log {host : Host} (port : Z) (save : option string)
      (conns : list request) (p : process) :
  forallb wire_text conns = true -> CaptureLog (REQUESTS_LOG p) ->
  CaptureLog (REQUESTS_LOG (start_listener port save conns p)).
Proof.
  intros Hconns Hlog.
  destruct (start_listener_run port save conns p) as (saved & -> & _).
  unfold CaptureLog in *. rewrite forallb_app, Hlog.
  apply captured_records_capture_log, Hconns.
Qed.

Lemma save_then_load (file : string) (p : process) :
  json_safe (PList (REQUESTS_LOG p)) = true -> REQUESTS_LOG p <> [] -> file <> ""%string ->
  inspect_requests_load file (save_requests (Some file) p) = Some (PList (REQUESTS_LOG p)).
Proof.
  intros Hsafe Hne Hfile. unfold save_requests, save_wanted.
  destruct (REQUESTS_LOG p) as [| r log] eqn:Hlog; [congruence |].
  destruct (String.eqb file "") eqn:E; [apply String.eqb_eq in E; contradiction |].
  run_monad. unfold inspect_requests_load. cbn [files].
  rewrite lookup_insert_eq.
  apply JsonFacts.loads_dumps, Hsafe.
Qed.

(** [listen --save file] followed by [inspect file]: what [inspect] loads
    is the log of the run, whenever the run ends with a non-empty log. *)
Lemma listen_then_inspect {host : Host} (port : Z) (file : string) (conns : list request) (p : process) :
  forallb wire_text conns = true -> CaptureLog (REQUESTS_LOG p) -> file <> ""%string ->
  REQUESTS_LOG p ++ captured_records conns <> [] ->
  inspect_requests_load file (start_listener port (Some file) conns p)
  = Some (PList (REQUESTS_LOG p ++ captured_records conns)).
Proof.
  intros Hconns Hlog Hfile Hne.
  pose proof (served_log_is_capture_log port None conns p Hconns Hlog) as Hserved.
  destruct (start_listener_run port None conns p) as (saved & Hrun & _).
  rewrite Hrun in Hserved.
  unfold start_listener, serve_forever. rewrite serve_from_capture.
  set (q := exec _ _).
  change (REQUESTS_LOG p ++ captured_records conns) with (REQUESTS_LOG q) in *.
  apply save_then_load; [apply capture_log_safe, Hserved | exact Hne | exact Hfile].
Qed.

(** * The claims of the design document *)

(** ** C1: exporter round trip *)

(** C1, counterexample.  For the empty log the save step of [listen] writes
    no file at all, so the file-reading step of [inspect] has nothing to
    load: the round trip fails for a log of size 0. *)
Lemma export_load_empty_log :
  CaptureLog []
  /\ inspect_requests_load "capture.json"
       (save_requests (Some "capture.json"%string) (with_log [] fresh_process))
     = None.
Proof.
  split; [reflexivity |].
  unfold inspect_requests_load, save_requests, save_wanted, with_log, fresh_process.
  cbn [REQUESTS_LOG files]. rewrite lookup_empty. reflexivity.
Qed.

(** C1, as amended.  For every non-empty CaptureLog and every save path,
    loading the file written by the save step of [listen] yields the
    records of the log, field for field and in the same order. *)
Theorem export_load_round_trip (file : string) (log : list pyval) (p : process) :
  CaptureLog log -> log <> [] -> file <> ""%string ->
  inspect_requests_load file (save_requests (Some file) (with_log log p))
  = Some (PList log).
Proof.
  intros Hlog Hne Hfile.
  apply (save_then_load file (with_log log p)); [| exact Hne | exact Hfile].
  apply capture_log_safe, Hlog.
Qed.

Lemma export_load_round_trip_witness :
  inspect_requests_load "capture.json"
    (save_requests (Some "capture.json"%string)
                   (with_log (repeat Scenario.order_record 101) fresh_process))
  = Some (PList (repeat Scenario.order_record 101)).
Proof.
  apply export_load_round_trip.
  - vm_compute. reflexivity.
  - discriminate.
  - discriminate.
Defined.

(** ** C2: methods the capture server accepts *)




(** ** C3: the mock server *)




(** ** C4: the Content-Length header *)




(** ** C5: the delay between attempts *)

(** C5, at the failing input.  Two attempts with a delay of one second
    against a host that refuses the first connection: the second attempt
    follows the failed first one at once, no [time.sleep] between them.
    Against a host that answers, the same command does sleep between the
    two attempts. *)
Theorem failed_attempt_skips_delay :
  trace (snd (Scenario.send Scenario.flaky 2 1 fresh_process))
  = [Console (send_banner (lit "post") (lit "http://localhost:9/hook"));
     Attempt 0;
     Console (send_failure (RequestException (lit "Connection refused")));
     Attempt 1;
     Console (send_status false 200 ((1 + (1 # 4) - 1) * 1000)%Q);
     Console (send_summary 2)]
  /\ trace (snd (Scenario.send Scenario.reachable 2 1 fresh_process))
     = [Console (send_banner (lit "post") (lit "http://localhost:9/hook"));
        Attempt 0;
        Console (send_status false 200 ((0 + (1 # 4) - 0) * 1000)%Q);
        Sleep 1;
        Attempt 1;
        Console (send_status false 200 ((1 + (1 # 4) - 1) * 1000)%Q);
        Console (send_summary 2)].
Proof. split; reflexivity. Qed.

(** ** C6: transport failures *)



(** ** C7: the acknowledgement *)




(** ** C8: who owns the capture history *)

(** C8, counterexample.  Two listener runs in one process: the log of the
    second run still holds the record captured by the first, and the file
    the second run saves contains it. *)
Lemma second_run_sees_first_run :
  let first := start_listener 8080 None [Scenario.post_order] fresh_process in
  let second := start_listener 8081 (Some "second.json"%string) [Scenario.get_status] first in
  captured_records [Scenario.get_status] <> REQUESTS_LOG second
  /\ REQUESTS_LOG second
     = captured_records [Scenario.post_order] ++ captured_records [Scenario.get_status]
  /\ inspect_requests_load "second.json" second = Some (PList (REQUESTS_LOG second)).
Proof.
  cbv zeta.
  destruct (start_listener_run 8080 None [Scenario.post_order] fresh_process)
    as (saved1 & Hlog1 & _).
  destruct (start_listener_run 8081 (Some "second.json"%string) [Scenario.get_status]
              (start_listener 8080 None [Scenario.post_order] fresh_process))
    as (saved2 & Hlog2 & _).
  rewrite Hlog1 in Hlog2. cbn [REQUESTS_LOG fresh_process app] in Hlog2.
  split; [| split].
  - rewrite Hlog2. discriminate.
  - exact Hlog2.
  - vm_compute. reflexivity.
Qed.

(** C8, as amended.  The capture history is the module-level list
    [REQUESTS_LOG], one per process: a listener run starts from whatever
    the list already holds and appends to it the records of its own
    connections, in accept order; it never clears the list, so the records
    of one run stay visible to every later run of the process. *)
Theorem capture_log_is_process_wide {host : Host} (port : Z) (save : option string)
        (conns : list request) (p : process) :
  REQUESTS_LOG (start_listener port save conns p)
  = REQUESTS_LOG p ++ captured_records conns.
Proof.
  destruct (start_listener_run port save conns p) as (saved & Hlog & _). exact Hlog.
Qed.

(** ** C9: one connection at a time *)




(** ** C10: bodies that are not UTF-8 *)




(** * Further properties of the plugin *)

(** ** UTF-8: what is encoded decodes to itself *)

Lemma to_N_byte_of_N (n : N) : n < 256 -> Byte.to_N (byte_of_N n) = n.
Proof.
  intros Hn. unfold byte_of_N. destruct (Byte.of_N n) as [b |] eqn:E.
  - apply Byte.to_of_N, E.
  - apply Byte.of_N_None_iff in E. lia.
Qed.

Ltac decide_cmp :=
  repeat match goal with
         | |- context [?a <? ?b] =>
           first [replace (a <? b) with true by (symmetry; apply N.ltb_lt; lia)
                 | replace (a <? b) with false by (symmetry; apply N.ltb_ge; lia)]
         | |- context [?a <=? ?b] =>
           first [replace (a <=? b) with true by (symmetry; apply N.leb_le; lia)
                 | replace (a <=? b) with false by (symmetry; apply N.leb_gt; lia)]
         | |- context [?a =? ?b] =>
           first [replace (a =? b) with true by (symmetry; apply N.eqb_eq; lia)
                 | replace (a =? b) with false by (symmetry; apply N.eqb_neq; lia)]
         end.

Lemma utf8_decode_encode_cp (c : N) (bs rest : pybytes) :
  utf8_encode_cp c = Some bs ->
  utf8_decode (bs ++ rest) = cons_opt c (utf8_decode rest).
Proof.
  unfold utf8_encode_cp.
  pose proof (N.div_mod c 64 ltac:(lia)) as H64.
  pose proof (N.mod_lt c 64 ltac:(lia)) as Hr.
  pose proof (N.div_mod (c / 64) 64 ltac:(lia)) as H4096.
  pose proof (N.mod_lt (c / 64) 64 ltac:(lia)) as Hb.
  pose proof (N.div_mod (c / 64 / 64) 64 ltac:(lia)) as H18.
  pose proof (N.mod_lt (c / 64 / 64) 64 ltac:(lia)) as Ha.
  replace (N.shiftr c 12) with (c / 64 / 64)
    by (rewrite N.shiftr_div_pow2, N.Div0.div_div; reflexivity).
  replace (N.shiftr c 18) with (c / 64 / 64 / 64)
    by (rewrite N.shiftr_div_pow2, !N.Div0.div_div; reflexivity).
  replace (N.shiftr c 6) with (c / 64) by (rewrite N.shiftr_div_pow2; reflexivity).
  change 0x3F with (N.ones 6). rewrite !N.land_ones. change (2 ^ 6) with 64.
  set (r := c mod 64) in *. set (q := c / 64) in *.
  set (r2 := q mod 64) in *. set (q2 := q / 64) in *.
  set (r3 := q2 mod 64) in *. set (q3 := q2 / 64) in *.
  clearbody r q r2 q2 r3 q3.
  assert (Hcont : forall x, x < 64 -> N.land (128 + x) (N.ones 6) = x).
  { intros x Hx. rewrite (lead_low_bits _ 128 6) by (change (2 ^ 6) with 64; reflexivity || lia).
    lia. }
  destruct (c <? 0x80) eqn:C1.
  { apply N.ltb_lt in C1. intros H. injection H as <-.
    cbn [app utf8_decode]. cbv zeta. rewrite to_N_byte_of_N by lia.
    decide_cmp. reflexivity. }
  apply N.ltb_ge in C1.
  destruct (c <? 0x800) eqn:C2.
  { apply N.ltb_lt in C2. intros H. injection H as <-.
    rewrite (lor_const_add 0xC0 5) by (change (2 ^ 5) with 32; first [reflexivity | lia]).
    rewrite (lor_const_add 0x80 6) by (change (2 ^ 6) with 64; first [reflexivity | lia]).
    cbn [app utf8_decode]. cbv zeta.
    rewrite !to_N_byte_of_N by lia.
    unfold is_cont. decide_cmp. cbn [andb].
    change 0x1F with (N.ones 5).
    rewrite (lead_low_bits _ 0xC0 5) by (change (2 ^ 5) with 32; first [reflexivity | lia]).
    change 0x3F with (N.ones 6). rewrite Hcont by lia.
    rewrite lor_shiftl_add by (change (2 ^ 6) with 64; lia).
    change (2 ^ 6) with 64. f_equal. lia. }
  apply N.ltb_ge in C2.
  destruct (c <? 0x10000) eqn:C3.
  { apply N.ltb_lt in C3.
    destruct (is_surrogate c) eqn:Cs; [discriminate |].
    unfold is_surrogate in Cs.
    assert (Hs : c < 0xD800 \/ 0xDFFF < c).
    { apply andb_false_iff in Cs as [Cs | Cs]; apply N.leb_gt in Cs; lia. }
    intros H. injection H as <-.
    rewrite (lor_const_add 0xE0 4) by (change (2 ^ 4) with 16; first [reflexivity | lia]).
    rewrite !(lor_const_add 0x80 6) by (change (2 ^ 6) with 64; first [reflexivity | lia]).
    cbn [app utf8_decode]. cbv zeta.
    rewrite !to_N_byte_of_N by lia.
    unfold is_cont. decide_cmp. cbn [andb negb].
    assert (G1 : (224 + q2 =? 224) && (128 + r2 <? 160) = false).
    { apply andb_false_iff. destruct (N.eq_dec q2 0);
        [right; apply N.ltb_ge; lia | left; apply N.eqb_neq; lia]. }
    assert (G2 : (224 + q2 =? 237) && (159 <? 128 + r2) = false).
    { apply andb_false_iff. destruct (N.eq_dec q2 13);
        [right; apply N.ltb_ge; lia | left; apply N.eqb_neq; lia]. }
    rewrite G1, G2. cbn [andb negb].
    change 0x0F with (N.ones 4).
    rewrite (lead_low_bits _ 0xE0 4) by (change (2 ^ 4) with 16; first [reflexivity | lia]).
    change 0x3F with (N.ones 6). rewrite !Hcont by lia.
    rewrite (lor_shiftl_add _ _ 6) by (change (2 ^ 6) with 64; lia).
    rewrite lor_shiftl_add by (change (2 ^ 6) with 64; change (2 ^ 12) with 4096; lia).
    change (2 ^ 6) with 64. change (2 ^ 12) with 4096. f_equal. lia. }
  apply N.ltb_ge in C3.
  destruct (c <? 0x110000) eqn:C4; [| discriminate].
  apply N.ltb_lt in C4. intros H. injection H as <-.
  rewrite (lor_const_add 0xF0 3) by (change (2 ^ 3) with 8; first [reflexivity | lia]).
  rewrite !(lor_const_add 0x80 6) by (change (2 ^ 6) with 64; first [reflexivity | lia]).
  cbn [app utf8_decode]. cbv zeta.
  rewrite !to_N_byte_of_N by lia.
  unfold is_cont. decide_cmp. cbn [andb negb].
  assert (G1 : (240 + q3 =? 240) && (128 + r3 <? 144) = false).
  { apply andb_false_iff. destruct (N.eq_dec q3 0);
      [right; apply N.ltb_ge; lia | left; apply N.eqb_neq; lia]. }
  assert (G2 : (240 + q3 =? 244) && (143 <? 128 + r3) = false).
  { apply andb_false_iff. destruct (N.eq_dec q3 4);
      [right; apply N.ltb_ge; lia | left; apply N.eqb_neq; lia]. }
  rewrite G1, G2. cbn [andb negb].
  change 0x07 with (N.ones 3).
  rewrite (lead_low_bits _ 0xF0 3) by (change (2 ^ 3) with 8; first [reflexivity | lia]).
  change 0x3F with (N.ones 6). rewrite !Hcont by lia.
  rewrite (lor_shiftl_add _ _ 6) by (change (2 ^ 6) with 64; lia).
  rewrite (lor_shiftl_add _ _ 12) by (change (2 ^ 6) with 64; change (2 ^ 12) with 4096; lia).
  rewrite lor_shiftl_add
    by (change (2 ^ 6) with 64; change (2 ^ 12) with 4096; change (2 ^ 18) with 262144; lia).
  change (2 ^ 6) with 64. change (2 ^ 12) with 4096. change (2 ^ 18) with 262144.
  f_equal. lia.
Qed.

Lemma utf8_decode_encode (s : pystr) (bs : pybytes) :
  utf8_encode s = Some bs -> utf8_decode bs = Some s.
Proof.
  revert bs. induction s as [| c s IH]; intros bs.
  - intros H. injection H as <-. reflexivity.
  - cbn [utf8_encode].
    destruct (utf8_encode_cp c) as [b |] eqn:Hc; [| discriminate].
    destruct (utf8_encode s) as [bs' |]; [| discriminate].
    intros H. injection H as <-.
    rewrite (utf8_decode_encode_cp c b bs' Hc), (IH bs' eq_refl). reflexivity.
Qed.

(** ** The capture server *)

Lemma serve_from_capture_files {host : Host} (conns : list request) (client : nat) (p : process) :
  files (serve_from WebhookHandler client conns p) = files p.
Proof. rewrite serve_from_capture. reflexivity. Qed.

Lemma captured_records_capturable {host : Host} (conns : list request) :
  forallb capturable conns = true ->
  List.Forall2 (fun self r =>
                  exists n body,
                    content_length self = Some n /\ request_body self n = Return body
                    /\ In (command self) capture_methods
                    /\ r = record_of (command self) self body)
               conns (captured_records conns).
Proof.
  induction conns as [| self rest IH]; [constructor |].
  cbn [forallb]. intros H. apply andb_true_iff in H as [Hself Hrest].
  change (captured_records (self :: rest))
    with (match captured_record self with Some r => [r] | None => [] end
          ++ captured_records rest).
  unfold capturable in Hself. destruct (captured_record self) as [r |] eqn:Hr; [| discriminate].
  cbn [app]. constructor; [| exact (IH Hrest)].
  unfold captured_record in Hr.
  destruct (existsb (pystr_eqb (command self)) capture_methods) eqn:Hin; [| discriminate].
  destruct (content_length self) as [n |] eqn:Hn; [| discriminate].
  destruct (request_body self n) as [body | e] eqn:Hbody; [| discriminate].
  injection Hr as <-. exists n, body.
  split; [reflexivity |]. split; [exact Hbody |].
  split; [apply existsb_pystr_eqb, Hin | reflexivity].
Qed.

(** X1.  Every listener run keeps the log a CaptureLog: whatever text
    requests arrive (supported or not, well-formed or not), each record
    appended has the five fields, all text, and a header dict with distinct
    keys. *)
Theorem listener_keeps_capture_log {host : Host} (port : Z) (save : option string)
        (conns : list request) (p : process) :
  forallb wire_text conns = true -> CaptureLog (REQUESTS_LOG p) ->
  CaptureLog (REQUESTS_LOG (start_listener port save conns p)).
Proof. apply served_log_is_capture_log. Qed.

Lemma listener_keeps_capture_log_witness :
  CaptureLog (REQUESTS_LOG
                (start_listener 8080 None
                   [Scenario.post_order; Scenario.options_probe; Scenario.garbled_length;
                    Scenario.binary_body; Scenario.get_status] fresh_process)).
Proof.
  apply listener_keeps_capture_log.
  - vm_compute. reflexivity.
  - reflexivity.
Defined.

(** X2.  [listen --save file] followed by [inspect file]: when the run ends
    with a non-empty log, the file-reading step of [inspect] loads exactly
    the log of the run, the records captured before the run followed by
    those of its own connections. *)
Theorem listen_save_inspect_round_trip {host : Host} (port : Z) (file : string)
        (conns : list request) (p : process) :
  forallb wire_text conns = true -> CaptureLog (REQUESTS_LOG p) -> file <> ""%string ->
  REQUESTS_LOG p ++ captured_records conns <> [] ->
  inspect_requests_load file (start_listener port (Some file) conns p)
  = Some (PList (REQUESTS_LOG p ++ captured_records conns)).
Proof. apply listen_then_inspect. Qed.

Lemma listen_save_inspect_round_trip_witness :
  inspect_requests_load "capture.json"
    (start_listener 8080 (Some "capture.json"%string)
                    [Scenario.post_order; Scenario.options_probe] fresh_process)
  = Some (PList [Scenario.order_record]).
Proof.
  etransitivity.
  - apply (listen_save_inspect_round_trip 8080 "capture.json"
             [Scenario.post_order; Scenario.options_probe] fresh_process).
    + vm_compute. reflexivity.
    + reflexivity.
    + discriminate.
    + intros E. vm_compute in E. discriminate E.
  - reflexivity.
Defined.

(** X3.  Capture completeness: when every request of a run has a supported
    method, a parsable [Content-Length], a body that can be read (a
    declared length that [rfile.read] accepts) and that is UTF-8, the run
    appends exactly one record per request, in arrival order, each with
    the method, path, headers and body of its request; whether the
    console prints the lines of a request makes no difference. *)
Theorem every_capturable_request_is_logged {host : Host} (port : Z) (save : option string)
        (conns : list request) (p : process) :
  forallb capturable conns = true ->
  exists records,
    REQUESTS_LOG (start_listener port save conns p) = REQUESTS_LOG p ++ records
    /\ length records = length conns
    /\ List.Forall2 (fun self r =>
                       exists n body,
                         content_length self = Some n /\ request_body self n = Return body
                         /\ In (command self) capture_methods
                         /\ r = record_of (command self) self body)
                    conns records.
Proof.
  intros Hconns. exists (captured_records conns).
  destruct (start_listener_run port save conns p) as (saved & Hlog & _).
  pose proof (captured_records_capturable conns Hconns) as Hall.
  split; [exact Hlog |]. split; [| exact Hall].
  symmetry. exact (List.Forall2_length Hall).
Qed.

Lemma every_capturable_request_is_logged_witness :
  exists records,
    REQUESTS_LOG (start_listener 8080 None
                    [Scenario.post_order; Scenario.markup_path; Scenario.get_status]
                    fresh_process)
    = records
    /\ length records = 3%nat.
Proof.
  destruct (every_capturable_request_is_logged 8080 None
              [Scenario.post_order; Scenario.markup_path; Scenario.get_status]
              fresh_process)
    as (records & Hlog & Hlen & _).
  - vm_compute. reflexivity.
  - exists records. split; [exact Hlog | exact Hlen].
Defined.

(** X4.  A text body is captured verbatim: when the client sends the UTF-8
    encoding of a text, declares its length in bytes as [Content-Length],
    and [rfile.read] accepts that length, the record appended holds
    exactly that text, and whatever bytes follow on the connection never
    reach the record.  The response follows when the console prints the
    lines of the request; when [console.print] raises, the record stays
    and nothing is sent. *)
Theorem utf8_text_captured_verbatim {host : Host} (method : pystr) (client : nat)
        (self : request) (p : process) (text : pystr) (sent trailing : pybytes) :
  utf8_encode text = Some sent ->
  rfile self = sent ++ trailing ->
  content_length self = Some (Z.of_nat (length sent)) ->
  read_raises (Z.of_nat (length sent)) = None ->
  REQUESTS_LOG (snd (_handle_request method client self p))
  = REQUESTS_LOG p ++ [record_of method self text]
  /\ _handle_request method client self p
     = if lines_print method self text
       then (Return tt, captured method client self text p)
       else (Raise MarkupError, recorded method self text p).
Proof.
  intros Hsent Hrfile Hlen Hread.
  assert (Hbody : request_body self (Z.of_nat (length sent)) = Return text).
  { apply request_body_return.
    destruct sent as [| b sent'].
    - right. split; [cbn [length]; lia |].
      apply utf8_decode_encode in Hsent. cbn in Hsent. injection Hsent as <-. reflexivity.
    - left. split; [cbn [length]; lia |]. split; [exact Hread |].
      unfold body_bytes.
      rewrite Hrfile, Nat2Z.id, firstn_app, Nat.sub_diag, firstn_all.
      cbn [firstn]. rewrite app_nil_r.
      exact (utf8_decode_encode text _ Hsent). }
  rewrite handle_request_run, Hlen, Hbody.
  destruct (lines_print method self text); split; reflexivity.
Qed.

Lemma utf8_text_captured_verbatim_witness :
  REQUESTS_LOG
    (snd (_handle_request (lit "POST") 0
            {| command := lit "POST"; path := lit "/hooks/test";
               headers := [(lit "Content-Length", lit "6")];
               rfile := [x63; x61; x66; xc3; xa9; x20; xe2; x82; xac; xf0; x9f; x98; x80];
               arrival := lit "2024-05-01T12:00:05.000000" |} fresh_process))
  = [record_of (lit "POST")
       {| command := lit "POST"; path := lit "/hooks/test";
          headers := [(lit "Content-Length", lit "6")];
          rfile := [x63; x61; x66; xc3; xa9; x20; xe2; x82; xac; xf0; x9f; x98; x80];
          arrival := lit "2024-05-01T12:00:05.000000" |}
       [99; 97; 102; 233; 32]].
Proof.
  apply (utf8_text_captured_verbatim (lit "POST") 0 _ fresh_process [99; 97; 102; 233; 32]
           [x63; x61; x66; xc3; xa9; x20] [xe2; x82; xac; xf0; x9f; x98; x80]).
  - reflexivity.
  - reflexivity.
  - reflexivity.
  - reflexivity.
Defined.

(** X5.  A [Content-Length] of zero or less reads nothing: the request is
    captured with an empty body, whatever bytes the client has sent after
    the headers, and acknowledged when the console prints its request
    line; when [console.print] raises, the record stays and nothing is
    sent. *)
Theorem nonpositive_length_reads_nothing {host : Host} (method : pystr) (client : nat)
        (self : request) (p : process) (n : Z) :
  content_length self = Some n -> (n <= 0)%Z ->
  REQUESTS_LOG (snd (_handle_request method client self p))
  = REQUESTS_LOG p ++ [record_of method self []]
  /\ _handle_request method client self p
     = if console_accepts (capture_request method (path self))
       then (Return tt, captured method client self [] p)
       else (Raise MarkupError, recorded method self [] p).
Proof.
  intros Hn Hle. rewrite handle_request_run, Hn. unfold request_body.
  replace (0 <? n)%Z with false by (symmetry; apply Z.ltb_ge; exact Hle).
  unfold lines_print. rewrite andb_true_r.
  destruct (console_accepts (capture_request method (path self))); split; reflexivity.
Qed.

Lemma nonpositive_length_reads_nothing_witness :
  _handle_request (lit "PUT") 3
    {| command := lit "PUT"; path := lit "/x";
       headers := [(lit "content-length", lit "-5")];
       rfile := [x68; x69]; arrival := lit "2024-05-01T12:00:06.000000" |} fresh_process
  = (Return tt,
     captured (lit "PUT") 3
       {| command := lit "PUT"; path := lit "/x";
          headers := [(lit "content-length", lit "-5")];
          rfile := [x68; x69]; arrival := lit "2024-05-01T12:00:06.000000" |}
       [] fresh_process).
Proof.
  exact (proj2 (nonpositive_length_reads_nothing (lit "PUT") 3
                  {| command := lit "PUT"; path := lit "/x";
                     headers := [(lit "content-length", lit "-5")];
                     rfile := [x68; x69]; arrival := lit "2024-05-01T12:00:06.000000" |}
                  fresh_process (-5)%Z eq_refl ltac:(discriminate))).
Defined.

Lemma dict_get_dict_set {V} (d : list (pystr * V)) (k k' : pystr) (v : V) :
  dict_get (dict_set d k v) k' = if pystr_eqb k k' then Some v else dict_get d k'.
Proof.
  induction d as [| [k0 v0] d IH]; cbn [dict_set dict_get]; [reflexivity |].
  destruct (pystr_eqb k0 k) eqn:E0; cbn [dict_get].
  - apply pystr_eqb_eq in E0. subst k0.
    destruct (pystr_eqb k k'); reflexivity.
  - rewrite IH. destruct (pystr_eqb k0 k') eqn:E1; [| reflexivity].
    apply pystr_eqb_eq in E1. subst k'.
    destruct (pystr_eqb k k0) eqn:E2; [| reflexivity].
    apply pystr_eqb_eq in E2. subst k0. rewrite pystr_eqb_refl in E0. discriminate E0.
Qed.

Lemma dict_get_fold {V} (F : pystr -> V) (pairs acc : list (pystr * V)) (k : pystr) :
  (forall kv, In kv pairs -> snd kv = F (fst kv)) ->
  dict_get (fold_left (fun d kv => dict_set d (fst kv) (snd kv)) pairs acc) k
  = if existsb (fun k' => pystr_eqb k' k) (List.map fst pairs)
    then Some (F k) else dict_get acc k.
Proof.
  revert acc. induction pairs as [| [k1 v1] pairs IH]; intros acc HF; [reflexivity |].
  cbn [fold_left List.map existsb fst snd].
  rewrite IH by (intros kv Hin; apply HF; right; exact Hin).
  rewrite dict_get_dict_set.
  destruct (existsb (fun k' => pystr_eqb k' k) (List.map fst pairs));
    [rewrite orb_true_r; reflexivity |].
  rewrite orb_false_r. destruct (pystr_eqb k1 k) eqn:E; [| reflexivity].
  apply pystr_eqb_eq in E. subst k1.
  pose proof (HF (k, v1) (or_introl eq_refl)) as Hv. cbn [fst snd] in Hv.
  rewrite Hv. reflexivity.
Qed.

Lemma headers_get_key (h : list (pystr * pystr)) (k : pystr) :
  existsb (fun k' => pystr_eqb k' k) (List.map fst h) = true ->
  exists v, headers_get h k = Some v.
Proof.
  induction h as [| [k0 v0] h IH]; [discriminate |].
  cbn [List.map fst existsb headers_get]. intros H.
  destruct (pystr_eqb (lower k0) (lower k)) eqn:El; [exists v0; reflexivity |].
  apply orb_true_iff in H as [H | H]; [| exact (IH H)].
  apply pystr_eqb_eq in H. subst k0. rewrite pystr_eqb_refl in El. discriminate El.
Qed.

(** X6.  The [headers] field of a record: a name is a key of the dict
    exactly when a header line carries that very name, and it is bound to
    the value of the first header line whose name matches it without
    regard to case.  (Two lines that differ in the case of the name give
    two keys, both with the value of the first.) *)
Theorem header_dict_lookup (h : list (pystr * pystr)) (k : pystr) :
  dict_get (dict_of_headers h) k
  = if existsb (fun k' => pystr_eqb k' k) (List.map fst h)
    then option_map PStr (headers_get h k)
    else None.
Proof.
  unfold dict_of_headers, py_dict.
  rewrite (dict_get_fold (fun k => match headers_get h k with
                                   | Some v => PStr v
                                   | None => PStr []
                                   end)).
  - rewrite map_map. cbn [fst]. cbn [dict_get].
    destruct (existsb (fun k' => pystr_eqb k' k) (List.map fst h)) eqn:E; [| reflexivity].
    destruct (headers_get_key h k E) as [v ->]. reflexivity.
  - intros kv Hin. apply in_map_iff in Hin as (kv0 & <- & _). reflexivity.
Qed.

(** X7.  The acknowledgement can be read back: whenever the handler
    returns, the last thing it has written to the connection is a body
    whose bytes are UTF-8 for a JSON document that [json.loads] decodes to
    the dict with status [received] and the request's timestamp. *)
Theorem acknowledgement_is_json {host : Host} (method : pystr) (client : nat) (self : request)
        (p p' : process) :
  is_text (arrival self) = true ->
  _handle_request method client self p = (Return tt, p') ->
  exists data text,
    last (received client (trace p')) = Some (wfile_write data)
    /\ utf8_decode data = Some text
    /\ Json.loads text = Some (ack_document (arrival self)).
Proof.
  intros Htext. rewrite handle_request_run.
  destruct (content_length self) as [n |]; [| discriminate].
  destruct (request_body self n) as [body | e]; [| discriminate].
  destruct (lines_print method self body); [| discriminate].
  intros H. injection H as <-.
  exists (List.map byte_of_N (Json.dumps None (ack_document (arrival self)))),
         (Json.dumps None (ack_document (arrival self))).
  split; [| split].
  - cbn [captured trace].
    rewrite !received_app, received_capture_lines, received_own. cbn [app].
    unfold response_sent.
    change [?a; ?b; ?c; ?d] with ([a; b; c] ++ [d]).
    rewrite app_assoc. apply last_snoc.
  - apply utf8_decode_encode, JsonFacts.utf8_encode_dumps.
  - apply JsonFacts.loads_dumps. unfold ack_document. cbn [json_safe List.map fst snd forallb].
    rewrite Htext. reflexivity.
Qed.

Lemma acknowledgement_is_json_witness :
  exists data text,
    last (received 0 (trace (captured (lit "POST") 0 Scenario.post_order Scenario.order_body
                                      fresh_process)))
    = Some (wfile_write data)
    /\ utf8_decode data = Some text
    /\ Json.loads text = Some (ack_document (lit "2024-05-01T12:00:00.000001")).
Proof.
  apply (acknowledgement_is_json (lit "POST") 0 Scenario.post_order fresh_process).
  - reflexivity.
  - reflexivity.
Defined.



(** X9.  The file a listener run saves is plain ASCII, whatever the
    captured paths, headers and bodies hold: the encoder escapes every
    other character. *)
Theorem saved_file_is_ascii {host : Host} (port : Z) (file : string) (conns : list request)
        (p : process) (text : pystr) :
  files p !! file = None ->
  files (start_listener port (Some file) conns p) !! file = Some text ->
  ascii_only text.
Proof.
  intros Hnew. unfold start_listener, serve_forever, save_requests.
  match goal with
  | |- context [save_wanted (Some file) ?l] =>
    destruct (save_wanted (Some file) l) as [f |] eqn:Hw
  end.
  - assert (Hf : f = file).
    { unfold save_wanted in Hw. destruct (REQUESTS_LOG _); [discriminate |].
      destruct (String.eqb file ""); [discriminate | congruence]. }
    subst f. run_monad. rewrite lookup_insert_eq. intros H. injection H as <-.
    apply JsonFacts.iterencode_ascii.
  - run_monad. rewrite serve_from_capture_files. cbn [files]. rewrite Hnew. discriminate.
Qed.

Lemma saved_file_is_ascii_witness :
  exists text,
    files (start_listener 8080 (Some "capture.json"%string) [Scenario.unicode_post]
                          fresh_process) !! "capture.json"%string = Some text
    /\ ascii_only text.
Proof.
  pose proof (saved_file_is_ascii 8080 "capture.json" [Scenario.unicode_post] fresh_process)
    as Hascii.
  destruct (files (start_listener 8080 (Some "capture.json"%string) [Scenario.unicode_post]
                                  fresh_process) !! "capture.json"%string)
    as [text |] eqn:E.
  - exists text. split; [reflexivity |]. apply Hascii; [apply lookup_empty | reflexivity].
  - vm_compute in E. discriminate E.
Defined.

(** ** The mock server *)

Lemma received_mock_events {host : Host} (cfg : MockConfig) (k client : nat) (self self' : request) :
  command self = command self' ->
  received k (mock_events cfg client self) = received k (mock_events cfg client self').
Proof.
  intros Hc.
  assert (Hline : forall s, received k [mock_line cfg client s] = []).
  { intros s. unfold mock_line. destruct (console_accepts _); reflexivity. }
  unfold mock_events. rewrite Hc.
  destruct (existsb _ mock_methods); [| reflexivity].
  destruct (mock_sleep_raises cfg); [reflexivity |].
  rewrite !received_app. f_equal.
  destruct (utf8_encode (mock_response cfg)); [| reflexivity].
  rewrite !received_app, !Hline. reflexivity.
Qed.

Lemma received_serve_mock {host : Host} (cfg : MockConfig) (k : nat) (conns : list request) :
  forall conns' client,
    List.map command conns = List.map command conns' ->
    received k (serve_events (mock_events cfg) client conns)
    = received k (serve_events (mock_events cfg) client conns').
Proof.
  induction conns as [| self rest IH]; intros [| self' rest'] client Hc;
    try discriminate Hc; [reflexivity |].
  cbn [List.map] in Hc. injection Hc as Hself Hrest.
  cbn [serve_events]. rewrite !received_app.
  rewrite (received_mock_events cfg k client self self' Hself), (IH rest' (S client) Hrest).
  reflexivity.
Qed.

Lemma mock_server_run {host : Host} (cfg : MockConfig) (conns : list request) (p : process) :
  mock_server cfg conns p
  = add_events (Console (mock_banner (mock_port cfg) (firstn 50 (mock_response cfg))
                                     (mock_status cfg))
                  :: serve_events (mock_events cfg) 0 conns ++ [Console mock_stopped]) p.
Proof.
  unfold mock_server, serve_forever. rewrite serve_from_mock.
  run_monad. unfold add_events. cbn [REQUESTS_LOG trace files].
  rewrite <- !app_assoc. reflexivity.
Qed.

(** X10.  The mock server never looks at a request beyond its method: two
    runs whose connections carry the same methods, whatever their paths,
    headers and bodies, send every client the same bytes. *)
Theorem mock_reply_ignores_request {host : Host} (cfg : MockConfig) (conns conns' : list request)
        (p : process) (k : nat) :
  List.map command conns = List.map command conns' ->
  received k (trace (mock_server cfg conns p))
  = received k (trace (mock_server cfg conns' p)).
Proof.
  intros Hc. rewrite !mock_server_run. cbn [add_events trace].
  change (Console ?b :: ?l) with ([Console b] ++ l).
  rewrite !received_app. rewrite (received_serve_mock cfg k conns conns' 0 Hc). reflexivity.
Qed.

Lemma mock_reply_ignores_request_witness :
  received 0 (trace (mock_server (Scenario.teapot 0) [Scenario.post_order] fresh_process))
  = received 0 (trace (mock_server (Scenario.teapot 0) [Scenario.garbled_length]
                                   fresh_process)).
Proof.
  apply (mock_reply_ignores_request (Scenario.teapot 0) [Scenario.post_order]
                                    [Scenario.garbled_length] fresh_process 0).
  reflexivity.
Defined.

Lemma sleeps_app (a b : list event) : sleeps (a ++ b) = sleeps a ++ sleeps b.
Proof. unfold sleeps. apply flat_map_app. Qed.

Lemma sleeps_wires (client : nat) (ws : list wire) : sleeps (List.map (Wire client) ws) = [].
Proof. induction ws as [| w ws IH]; [reflexivity | exact IH]. Qed.

(** X11.  With a delay of zero or less the mock server never sleeps: a run
    adds no [time.sleep] to the trace, however many connections it
    serves. *)
Theorem mock_without_delay_never_sleeps {host : Host} (cfg : MockConfig) (conns : list request)
        (p : process) :
  (mock_delay cfg <= 0)%Q ->
  sleeps (trace (mock_server cfg conns p)) = sleeps (trace p).
Proof.
  intros Hd.
  assert (Hpos : Qpositive (mock_delay cfg) = false).
  { unfold Qpositive. apply negb_false_iff, Qle_bool_iff, Hd. }
  rewrite mock_server_run. cbn [add_events trace].
  change (Console ?b :: ?l) with ([Console b] ++ l).
  rewrite !sleeps_app. cbn [sleeps flat_map app]. rewrite app_nil_r.
  assert (Hserve : forall client, sleeps (serve_events (mock_events cfg) client conns) = []).
  { induction conns as [| self rest IH]; intros client; [reflexivity |].
    cbn [serve_events]. rewrite sleeps_app, IH, app_nil_r.
    unfold mock_events, mock_sleep_raises, mock_line. rewrite Hpos.
    destruct (existsb _ mock_methods); [| reflexivity].
    destruct (utf8_encode (mock_response cfg)); [| reflexivity].
    cbn [app]. rewrite sleeps_app, sleeps_wires.
    destruct (console_accepts _); reflexivity. }
  rewrite Hserve, app_nil_r. reflexivity.
Qed.

Lemma mock_without_delay_never_sleeps_witness :
  sleeps (trace (mock_server (Scenario.teapot (-1)) [Scenario.post_order; Scenario.get_status]
                             fresh_process))
  = [].
Proof.
  apply (mock_without_delay_never_sleeps (Scenario.teapot (-1))
           [Scenario.post_order; Scenario.get_status] fresh_process).
  discriminate.
Defined.

(** X12.  The mock server captures nothing and writes nothing: a run,
    whatever connections it serves, leaves [REQUESTS_LOG] and the file
    system as they were. *)
Theorem mock_server_keeps_log_and_files {host : Host} (cfg : MockConfig) (conns : list request)
        (p : process) :
  REQUESTS_LOG (mock_server cfg conns p) = REQUESTS_LOG p
  /\ files (mock_server cfg conns p) = files p.
Proof. rewrite mock_server_run. split; reflexivity. Qed.

(** ** The sender *)

Section SenderMore.

Context {host : Host}.
Variable Body : Type.
Variable upper : pystr -> pystr.
Variable time_before time_after : nat -> Q.
Variable transport : nat -> http_call Body -> Z + pystr.
Variables (url method : pystr) (body : Body) (headers : list (pystr * pystr)).
Variables (repeat : Z) (delay : Q).

#[local] Abbreviation block_of :=
  (attempt_events Body upper time_before time_after transport
                  url method body headers repeat delay).

#[local] Abbreviation answered_early :=
  (fun i : nat =>
     negb (is_error (transport i (the_call Body upper url method body headers)))
     && (Z.of_nat i <? repeat - 1)%Z).

Lemma sleeps_attempts (l : list nat) :
  sleeps (flat_map block_of l)
  = if Qpositive delay && sleep_returns delay
    then List.map (fun _ => delay) (List.filter answered_early l) else [].
Proof.
  unfold sleep_returns. induction l as [| i l IH].
  - destruct (Qpositive delay && _); reflexivity.
  - cbn [flat_map List.filter]. rewrite sleeps_app, IH.
    unfold attempt_events.
    assert (Hone : ((1 <? repeat)%Z && (Z.of_nat i <? repeat - 1)%Z)
                   = (Z.of_nat i <? repeat - 1)%Z).
    { destruct (Z.of_nat i <? repeat - 1)%Z eqn:E; [| apply andb_false_r].
      apply Z.ltb_lt in E. rewrite andb_true_r. apply Z.ltb_lt. lia. }
    rewrite Hone.
    destruct (transport i _) as [code | msg]; cbn [is_error negb andb];
      destruct (Z.of_nat i <? repeat - 1)%Z; destruct (Qpositive delay);
      try destruct (sleep_raises delay); reflexivity.
Qed.


End SenderMore.


(** X14.  Delay honoured: when every attempt is answered, the delay is
    positive and [time.sleep] accepts it, [send] with repeat count
    [r >= 1] sleeps exactly [r - 1] times, each time for the configured
    delay. *)
Theorem delay_honoured {host : Host} (Body : Type) (upper : pystr -> pystr)
        (time_before time_after : nat -> Q)
        (transport : nat -> http_call Body -> Z + pystr)
        (url method : pystr) (body : Body) (headers : list (pystr * pystr))
        (repeat : Z) (delay : Q) (p : process) :
  (forall i call, is_error (transport i call) = false) ->
  (0 < delay)%Q -> sleep_raises delay = None -> (1 <= repeat)%Z ->
  sleeps (trace (snd (send_webhook Body upper time_before time_after transport
                                   url method body headers repeat delay p)))
  = sleeps (trace p) ++ List.repeat delay (Z.to_nat (repeat - 1)).
Proof.
  intros Hok Hdelay Hsleep Hrepeat.
  rewrite send_webhook_run. cbn [snd add_events trace].
  change (Console ?b :: ?l) with ([Console b] ++ l).
  rewrite !sleeps_app, sleeps_attempts. cbn [sleeps flat_map app].
  assert (Hpos : Qpositive delay = true).
  { unfold Qpositive. apply negb_true_iff.
    destruct (Qle_bool delay 0) eqn:E; [| reflexivity].
    apply Qle_bool_iff in E. exfalso. exact (Qlt_not_le _ _ Hdelay E). }
  unfold sleep_returns. rewrite Hpos, Hsleep. cbn [andb].
  assert (Hfilter : forall len start,
    (start + len = Z.to_nat repeat)%nat ->
    List.map (fun _ : nat => delay)
      (List.filter
         (fun i =>
            negb (is_error (transport i (the_call Body upper url method body headers)))
            && (Z.of_nat i <? repeat - 1)%Z)
         (seq start len))
    = List.repeat delay (len - 1)).
  { induction len as [| len IH]; intros start Hlen; [reflexivity |].
    cbn [seq List.filter]. rewrite Hok. cbn [negb andb].
    destruct len as [| len'].
    - replace (Z.of_nat start <? repeat - 1)%Z with false
        by (symmetry; apply Z.ltb_ge; lia).
      reflexivity.
    - replace (Z.of_nat start <? repeat - 1)%Z with true
        by (symmetry; apply Z.ltb_lt; lia).
      cbn [List.map]. rewrite (IH (S start)) by lia.
      replace (S (S len') - 1)%nat with (S (S len' - 1)) by lia. reflexivity. }
  rewrite (Hfilter (Z.to_nat repeat) 0%nat eq_refl).
  replace (Z.to_nat repeat - 1)%nat with (Z.to_nat (repeat - 1)) by lia.
  destruct (1 <? repeat)%Z; cbn [flat_map]; rewrite app_nil_r; reflexivity.
Qed.

Lemma delay_honoured_witness :
  sleeps (trace (snd (Scenario.send Scenario.reachable 3 (1 # 5) fresh_process)))
  = [1 # 5; 1 # 5]%Q.
Proof.
  apply (delay_honoured unit Scenario.ascii_upper Scenario.clock_before Scenario.clock_after
           Scenario.reachable (lit "http://localhost:9/hook") (lit "post") tt
           [(lit "Content-Type", lit "application/json")] 3 (1 # 5) fresh_process).
  - reflexivity.
  - reflexivity.
  - reflexivity.
  - discriminate.
Defined.




(** X17.  With method GET or DELETE (in any letter case that [upper] maps
    to them) the JSON body plays no part: [send] does the same with any two
    bodies. *)
Theorem get_and_delete_ignore_body {host : Host} (Body : Type) (upper : pystr -> pystr)
        (time_before time_after : nat -> Q)
        (transport : nat -> http_call Body -> Z + pystr)
        (url method : pystr) (body body' : Body) (headers : list (pystr * pystr))
        (repeat : Z) (delay : Q) (p : process) :
  upper method = lit "GET" \/ upper method = lit "DELETE" ->
  send_webhook Body upper time_before time_after transport
               url method body headers repeat delay p
  = send_webhook Body upper time_before time_after transport
                 url method body' headers repeat delay p.
Proof.
  intros Hm. rewrite !send_webhook_run.
  assert (Hev : forall l,
    flat_map (attempt_events Body upper time_before time_after transport
                             url method body headers repeat delay) l
    = flat_map (attempt_events Body upper time_before time_after transport
                               url method body' headers repeat delay) l).
  { intros l. apply flat_map_ext. intros i.
    unfold attempt_events, the_call.
    destruct Hm as [-> | ->]; reflexivity. }
  rewrite Hev. reflexivity.
Qed.

Lemma get_and_delete_ignore_body_witness :
  send_webhook bool Scenario.ascii_upper Scenario.clock_before Scenario.clock_after
               (fun _ _ => inl 204%Z) (lit "http://localhost:9/hook") (lit "delete") true
               [] 2 0 fresh_process
  = send_webhook bool Scenario.ascii_upper Scenario.clock_before Scenario.clock_after
                 (fun _ _ => inl 204%Z) (lit "http://localhost:9/hook") (lit "delete") false
                 [] 2 0 fresh_process.
Proof.
  apply get_and_delete_ignore_body. right. reflexivity.
Defined.

(** ** The command line of [send] *)

Lemma split_once_no_colon (h : pystr) : has_colon h = false -> split_once 58 h = [h].
Proof.
  induction h as [| c h IH]; [reflexivity |].
  unfold has_colon. cbn [existsb split_once]. intros H.
  apply orb_false_elim in H as [Hc Hh]. rewrite Hc.
  fold (has_colon h) in Hh. rewrite (IH Hh). reflexivity.
Qed.

Lemma split_once_first_colon (k v : pystr) :
  has_colon k = false -> split_once 58 (k ++ 58 :: v) = [k; v].
Proof.
  induction k as [| c k IH]; [reflexivity |].
  unfold has_colon. cbn [existsb split_once app]. intros H.
  apply orb_false_elim in H as [Hc Hk]. rewrite Hc.
  fold (has_colon k) in Hk. rewrite (IH Hk). reflexivity.
Qed.

Lemma split_once_has_colon (h : pystr) :
  has_colon h = true -> exists k v, split_once 58 h = [k; v].
Proof.
  induction h as [| c h IH]; [discriminate |].
  unfold has_colon. cbn [existsb split_once]. intros H.
  destruct (c =? 58); [exists [], h; reflexivity |].
  cbn [orb] in H. fold (has_colon h) in H.
  destruct (IH H) as (k & v & ->). exists (c :: k), v. reflexivity.
Qed.

Lemma add_header_options_bad (header : list pystr) (h : pystr) :
  In h header -> has_colon h = false ->
  forall acc p, add_header_options header acc p = (Raise ValueError, p).
Proof.
  intros Hin Hbad. induction header as [| h0 rest IH]; [destruct Hin |].
  intros acc p. cbn [add_header_options].
  destruct (has_colon h0) eqn:E0.
  - destruct (split_once_has_colon h0 E0) as (k & v & ->).
    destruct Hin as [-> | Hin]; [congruence |]. apply (IH Hin).
  - rewrite (split_once_no_colon h0 E0). reflexivity.
Qed.

Lemma add_header_options_good (header : list pystr) :
  forallb has_colon header = true ->
  forall acc p,
    exists hs,
      add_header_options header acc p = (Return hs, p)
      /\ (forall k, dict_get acc k <> None -> dict_get hs k <> None)
      /\ (forall k, forallb (fun h => negb (pystr_eqb (header_key h) k)) header = true ->
                    dict_get hs k = dict_get acc k).
Proof.
  induction header as [| h rest IH]; intros Hall acc p.
  - exists acc. repeat split; auto.
  - cbn [forallb] in Hall. apply andb_true_iff in Hall as [Hh Hrest].
    cbn [add_header_options].
    destruct (split_once_has_colon h Hh) as (k0 & v0 & Hsplit). rewrite Hsplit.
    destruct (IH Hrest (dict_set acc (str_strip k0) (str_strip v0)) p)
      as (hs & Hrun & Hkeep & Hsame).
    exists hs. split; [exact Hrun |]. split.
    + intros k Hk. apply Hkeep. rewrite dict_get_dict_set.
      destruct (pystr_eqb (str_strip k0) k); [discriminate | exact Hk].
    + intros k Hno. cbn [forallb] in Hno. apply andb_true_iff in Hno as [Hk Hno].
      rewrite (Hsame k Hno), dict_get_dict_set.
      unfold header_key in Hk. rewrite Hsplit in Hk. cbn [hd] in Hk.
      apply negb_true_iff in Hk. rewrite Hk. reflexivity.
Qed.

(** X18.  A [-H] option without a colon aborts [send] at once: the command
    raises [ValueError] before it prints its banner and before any request
    is attempted, whatever the other options are. *)
Theorem header_without_colon_aborts {host : Host} (Body : Type) (upper : pystr -> pystr)
        (time_before time_after : nat -> Q)
        (transport : nat -> http_call Body -> Z + pystr)
        (json_loads : pystr -> option Body) (default_body : Body)
        (url method : pystr) (data : option pystr) (header : list pystr)
        (repeat : Z) (delay : Q) (p : process) (h : pystr) :
  In h header -> has_colon h = false ->
  send_webhook_command Body upper time_before time_after transport json_loads default_body
                       url method data header repeat delay p
  = (Raise ValueError, p).
Proof.
  intros Hin Hbad. unfold send_webhook_command, bind.
  rewrite (add_header_options_bad header h Hin Hbad). reflexivity.
Qed.

Lemma header_without_colon_aborts_witness :
  send_webhook_command unit Scenario.ascii_upper Scenario.clock_before Scenario.clock_after
                       Scenario.reachable (fun _ => Some tt) tt
                       (lit "http://localhost:9/hook") (lit "POST") None
                       [lit "X-Token: abc"; lit "Authorization Bearer xyz"] 3 0
                       fresh_process
  = (Raise ValueError, fresh_process).
Proof.
  apply (header_without_colon_aborts unit Scenario.ascii_upper Scenario.clock_before
           Scenario.clock_after Scenario.reachable (fun _ => Some tt) tt
           (lit "http://localhost:9/hook") (lit "POST") None
           [lit "X-Token: abc"; lit "Authorization Bearer xyz"] 3 0 fresh_process
           (lit "Authorization Bearer xyz")).
  - right. left. reflexivity.
  - reflexivity.
Defined.

(** X19.  [send] always sends a [Content-Type] header: when every [-H]
    option has a colon, the header dict is built, it has the key
    [Content-Type], and the value is [application/json] unless an option
    names exactly [Content-Type] (an option that differs in letter case
    adds a second header and leaves the default). *)
Theorem content_type_always_sent (header : list pystr) (p : process) :
  forallb has_colon header = true ->
  exists hs,
    add_header_options header [(lit "Content-Type", lit "application/json")] p
    = (Return hs, p)
    /\ dict_get hs (lit "Content-Type") <> None
    /\ (forallb (fun h => negb (pystr_eqb (header_key h) (lit "Content-Type"))) header = true ->
        dict_get hs (lit "Content-Type") = Some (lit "application/json")).
Proof.
  intros Hall.
  destruct (add_header_options_good header Hall
              [(lit "Content-Type", lit "application/json")] p)
    as (hs & Hrun & Hkeep & Hsame).
  exists hs. split; [exact Hrun |]. split.
  - apply Hkeep. discriminate.
  - intros Hno. rewrite (Hsame _ Hno). reflexivity.
Qed.

Lemma content_type_always_sent_witness :
  exists hs,
    add_header_options [lit "content-type: text/plain"; lit " X-Id :7 "]
                       [(lit "Content-Type", lit "application/json")] fresh_process
    = (Return hs, fresh_process)
    /\ dict_get hs (lit "Content-Type") = Some (lit "application/json")
    /\ dict_get hs (lit "content-type") = Some (lit "text/plain")
    /\ dict_get hs (lit "X-Id") = Some (lit "7").
Proof.
  destruct (content_type_always_sent [lit "content-type: text/plain"; lit " X-Id :7 "]
                                     fresh_process eq_refl)
    as (hs & Hrun & _ & Hdefault).
  exists hs. split; [exact Hrun |]. split; [exact (Hdefault eq_refl) |].
  cbn in Hrun. injection Hrun as <-. split; reflexivity.
Defined.

(** X20.  A [-H] option is split at its first colon only: the name is what
    precedes it, the value everything after it, colons included, both
    stripped of surrounding white space. *)
Theorem header_split_at_first_colon (k v : pystr) (acc : list (pystr * pystr)) (p : process) :
  has_colon k = false ->
  add_header_options [k ++ 58 :: v] acc p
  = (Return (dict_set acc (str_strip k) (str_strip v)), p).
Proof.
  intros Hk. cbn [add_header_options]. rewrite (split_once_first_colon k v Hk). reflexivity.
Qed.

Lemma header_split_at_first_colon_witness :
  add_header_options [lit "X-Time: 12:30:05 "] [] fresh_process
  = (Return [(lit "X-Time", lit "12:30:05")], fresh_process).
Proof.
  apply (header_split_at_first_colon (lit "X-Time") (lit " 12:30:05 ") [] fresh_process).
  reflexivity.
Defined.

(** X21.  A [--data] option that is not JSON aborts [send] with a
    [ValueError] before the banner and before any request, when the [-H]
    options are well formed; without [--data], or with an empty one, the
    default body is sent. *)
Theorem data_option_decoded_first {host : Host} (Body : Type) (upper : pystr -> pystr)
        (time_before time_after : nat -> Q)
        (transport : nat -> http_call Body -> Z + pystr)
        (json_loads : pystr -> option Body) (default_body : Body)
        (url method : pystr) (data : option pystr) (header : list pystr)
        (repeat : Z) (delay : Q) (p : process) :
  forallb has_colon header = true ->
  exists hs,
    add_header_options header [(lit "Content-Type", lit "application/json")] p
    = (Return hs, p)
    /\ send_webhook_command Body upper time_before time_after transport json_loads
                            default_body url method data header repeat delay p
       = match data with
         | Some (c :: d) =>
           match json_loads (c :: d) with
           | Some body =>
             send_webhook Body upper time_before time_after transport
                          url method body hs repeat delay p
           | None => (Raise ValueError, p)
           end
         | _ =>
           send_webhook Body upper time_before time_after transport
                        url method default_body hs repeat delay p
         end.
Proof.
  intros Hall.
  destruct (add_header_options_good header Hall
              [(lit "Content-Type", lit "application/json")] p)
    as (hs & Hrun & _ & _).
  exists hs. split; [exact Hrun |].
  unfold send_webhook_command. unfold bind at 1. rewrite Hrun.
  destruct data as [[| c d] |]; try reflexivity.
  unfold bind at 1. destruct (json_loads (c :: d)); reflexivity.
Qed.

Lemma data_option_decoded_first_witness :
  send_webhook_command unit Scenario.ascii_upper Scenario.clock_before Scenario.clock_after
                       Scenario.reachable (fun _ => None) tt
                       (lit "http://localhost:9/hook") (lit "POST") (Some (lit "{oops"))
                       [lit "X-Token: abc"] 3 0 fresh_process
  = (Raise ValueError, fresh_process).
Proof.
  destruct (data_option_decoded_first unit Scenario.ascii_upper Scenario.clock_before
              Scenario.clock_after Scenario.reachable (fun _ => None) tt
              (lit "http://localhost:9/hook") (lit "POST") (Some (lit "{oops"))
              [lit "X-Token: abc"] 3 0 fresh_process eq_refl)
    as (hs & _ & Hrun).
  exact Hrun.
Defined.

(** ** [inspect] *)

Lemma request_record_fields (r : pyval) :
  is_request_record r = true ->
  exists t m pa h b, r = RequestRecord t m pa h b.
Proof.
  intros H.
  destruct r as [s | l | [| [k1 [t | ? | ?]] [| [k2 [m | ? | ?]] [| [k3 [pa | ? | ?]]
    [| [k4 [? | ? | h]] [| [k5 [b | ? | ?]] [| ? ?]]]]]]]; try discriminate H.
  cbn [is_request_record] in H.
  repeat match type of H with
         | _ && _ = true => let H' := fresh "H" in apply andb_true_iff in H as [H H']
         end.
  repeat match goal with
         | E : pystr_eqb _ (lit _) = true |- _ => apply pystr_eqb_eq in E; subst
         end.
  exists t, m, pa, h, b. reflexivity.
Qed.

Lemma table_row_record (i : nat) (t m pa : pystr) (h : list (pystr * pyval)) (b : pystr) :
  table_row i (RequestRecord t m pa h b) = Some (summary_row i t m pa b).
Proof. reflexivity. Qed.

Lemma table_rows_log (log : list pyval) :
  CaptureLog log ->
  forall i,
    exists rows,
      table_rows i log = Some rows
      /\ length rows = length log
      /\ forall j t m pa h b,
          nth_error log j = Some (RequestRecord t m pa h b) ->
          nth_error rows j = Some (summary_row (i + j) t m pa b).
Proof.
  unfold CaptureLog. induction log as [| r log IH]; intros Hlog i.
  - exists []. repeat split. intros j t m pa h b Hj. destruct j; discriminate Hj.
  - cbn [forallb] in Hlog. apply andb_true_iff in Hlog as [Hr Hlog].
    destruct (request_record_fields r Hr) as (t0 & m0 & pa0 & h0 & b0 & ->).
    destruct (IH Hlog (S i)) as (rows & Hrows & Hlen & Hnth).
    exists (summary_row i t0 m0 pa0 b0 :: rows).
    cbn [table_rows]. rewrite table_row_record, Hrows.
    split; [reflexivity |]. split; [cbn [length]; congruence |].
    intros j t m pa h b Hj. destruct j as [| j].
    + cbn [nth_error] in Hj |- *. injection Hj as <- <- <- <- <-.
      rewrite Nat.add_0_r. reflexivity.
    + cbn [nth_error] in Hj |- *. rewrite (Hnth j t m pa h b Hj).
      replace (S i + j)%nat with (i + S j)%nat by lia. reflexivity.
Qed.

(** X22.  [inspect] on a file that [listen] has saved: for a non-empty
    CaptureLog it announces the number of records and then builds a table
    with one row per record, in the order of the log, each giving the
    record's position (from 1), its method, the first 30 characters of its
    path, characters 11 to 18 of its timestamp (the time of day) and the
    length of its body. *)
Theorem inspect_saved_log (file : string) (log : list pyval) (p : process) :
  CaptureLog log -> log <> [] -> file <> ""%string ->
  exists rows,
    inspect_requests file (save_requests (Some file) (with_log log p))
    = [inspect_header (length log); inspect_table rows]
    /\ length rows = length log
    /\ forall j t m pa h b,
        nth_error log j = Some (RequestRecord t m pa h b) ->
        nth_error rows j = Some (summary_row (S j) t m pa b).
Proof.
  intros Hlog Hne Hfile.
  destruct (table_rows_log log Hlog 1%nat) as (rows & Hrows & Hlen & Hnth).
  exists rows. split; [| split; [exact Hlen | exact Hnth]].
  unfold inspect_requests.
  rewrite (save_then_load file (with_log log p) (capture_log_safe log Hlog) Hne Hfile).
  cbn [with_log REQUESTS_LOG py_len py_iter]. rewrite Hrows. reflexivity.
Qed.

Lemma inspect_saved_log_witness :
  inspect_requests "capture.json"
    (save_requests (Some "capture.json"%string)
                   (with_log [Scenario.order_record] fresh_process))
  = [inspect_header 1;
     inspect_table [{| row_index := 1; row_method := lit "POST";
                       row_path := lit "/hooks/test"; row_time := lit "12:00:00";
                       row_body_size := 15 |}]].
Proof.
  destruct (inspect_saved_log "capture.json" [Scenario.order_record] fresh_process)
    as (rows & Hout & Hlen & Hnth); [reflexivity | discriminate | discriminate |].
  rewrite Hout. destruct rows as [| r [| r' rows]]; try discriminate Hlen.
  specialize (Hnth 0%nat _ _ _ _ _ eq_refl). cbn [nth_error] in Hnth.
  injection Hnth as ->. reflexivity.
Defined.

Lemma py_len_iter (o : pyval) : length (py_iter o) = py_len o.
Proof. destruct o; cbn [py_iter py_len]; rewrite ?length_map; reflexivity. Qed.

Lemma table_rows_bounds (reqs : list pyval) :
  forall i rows,
    table_rows i reqs = Some rows ->
    length rows = length reqs
    /\ List.map row_index rows = seq i (length rows)
    /\ List.Forall (fun r => (length (row_path r) <= 30)%nat
                             /\ (length (row_time r) <= 8)%nat) rows.
Proof.
  induction reqs as [| req rest IH]; intros i rows.
  - intros H. injection H as <-. repeat split. constructor.
  - cbn [table_rows].
    destruct (table_row i req) as [row |] eqn:Hrow; [| discriminate].
    destruct (table_rows (S i) rest) as [rows' |] eqn:Hrows; [| discriminate].
    intros H. injection H as <-.
    destruct (IH (S i) rows' Hrows) as (Hlen & Hidx & Hall).
    unfold table_row in Hrow.
    destruct (py_getitem req (lit "method")) as [[m | |] |]; try discriminate Hrow.
    destruct (py_getitem req (lit "path")) as [[pa | |] |]; try discriminate Hrow.
    destruct (py_getitem req (lit "timestamp")) as [[t | |] |]; try discriminate Hrow.
    injection Hrow as <-.
    split; [cbn [length]; congruence |]. split.
    + cbn [List.map length seq row_index]. rewrite Hidx. reflexivity.
    + constructor; [| exact Hall]. cbn [row_path row_time].
      split; rewrite length_firstn; lia.
Qed.

(** X23.  For a file that holds a JSON document made of strings, arrays
    and objects (the documents the decoder of this development covers),
    whatever their shape: a table that [inspect] builds has as many rows
    as the header line announces, numbered 1, 2, ... in order, with at
    most 30 characters in the path column and at most 8 in the time
    column. *)
Theorem inspect_table_bounds (file : string) (p : process) (rows : list inspect_row) :
  In (inspect_table rows) (inspect_requests file p) ->
  In (inspect_header (length rows)) (inspect_requests file p)
  /\ List.map row_index rows = seq 1 (length rows)
  /\ List.Forall (fun r => (length (row_path r) <= 30)%nat
                           /\ (length (row_time r) <= 8)%nat) rows.
Proof.
  unfold inspect_requests.
  destruct (inspect_requests_load file p) as [data |].
  2:{ intros [H | []]. discriminate H. }
  destruct (table_rows 1 (py_iter data)) as [rows' |] eqn:Hrows.
  2:{ intros [H | [H | []]]; discriminate H. }
  intros [H | [H | []]]; [discriminate H |]. injection H as <-.
  destruct (table_rows_bounds _ _ _ Hrows) as (Hlen & Hidx & Hall).
  split; [| split; [exact Hidx | exact Hall]].
  left. rewrite Hlen, py_len_iter. reflexivity.
Qed.

Lemma inspect_table_bounds_witness :
  In (inspect_header 1)
     (inspect_requests "capture.json"
        (save_requests (Some "capture.json"%string)
                       (with_log [Scenario.order_record] fresh_process)))
  /\ List.map row_index
              [{| row_index := 1; row_method := lit "POST";
                  row_path := lit "/hooks/test"; row_time := lit "12:00:00";
                  row_body_size := 15 |}]
     = [1%nat].
Proof.
  destruct (inspect_table_bounds "capture.json"
              (save_requests (Some "capture.json"%string)
                             (with_log [Scenario.order_record] fresh_process))
              [{| row_index := 1; row_method := lit "POST";
                  row_path := lit "/hooks/test"; row_time := lit "12:00:00";
                  row_body_size := 15 |}])
    as (Hcount & Hidx & _).
  - vm_compute. right. left. reflexivity.
  - split; [exact Hcount | exact Hidx].
Defined.

(** X24.  A listener run that ends with an empty log saves nothing, so
    [inspect] on a save path that did not exist before reports its error
    and gives neither a count nor a table. *)
Theorem inspect_after_empty_run {host : Host} (port : Z) (save : option string) (file : string)
        (conns : list request) (p : process) :
  files p !! file = None ->
  REQUESTS_LOG p ++ captured_records conns = [] ->
  inspect_requests file (start_listener port save conns p) = [inspect_error].
Proof.
  intros Hnew Hempty.
  unfold inspect_requests, inspect_requests_load.
  replace (files (start_listener port save conns p) !! file) with (files p !! file).
  - rewrite Hnew. reflexivity.
  - unfold start_listener, serve_forever, save_requests.
    rewrite serve_from_capture.
    cbn [exec console_print emit snd add_events add_records REQUESTS_LOG trace files].
    rewrite Hempty. unfold save_wanted. destruct save; reflexivity.
Qed.

Lemma inspect_after_empty_run_witness :
  inspect_requests "capture.json"
    (start_listener 8080 (Some "capture.json"%string)
                    [Scenario.options_probe; Scenario.binary_body] fresh_process)
  = [inspect_error].
Proof.
  apply inspect_after_empty_run.
  - apply lookup_empty.
  - reflexivity.
Defined.

(** ** Lengths and delays out of range *)




(** X26.  A [Content-Length] beyond what a [bytes] object can hold (from
    2^63 - 33 on): on every host [rfile.read] raises [OverflowError]
    before a byte is read, so nothing is appended to the log and nothing
    is sent, whatever the body. *)
Theorem length_out_of_range {host : Host} (method : pystr) (client : nat) (self : request)
        (p : process) (n : Z) :
  content_length self = Some n -> (PY_SSIZE_T_MAX - PyBytesObject_SIZE < n)%Z ->
  _handle_request method client self p = (Raise OverflowError, p).
Proof.
  intros Hn Hlarge. rewrite handle_request_run, Hn. unfold request_body, read_raises.
  replace (0 <? n)%Z with true
    by (symmetry; apply Z.ltb_lt; unfold PY_SSIZE_T_MAX, PyBytesObject_SIZE in Hlarge; lia).
  replace (PY_SSIZE_T_MAX - PyBytesObject_SIZE <? n)%Z with true
    by (symmetry; apply Z.ltb_lt; exact Hlarge).
  reflexivity.
Qed.

Lemma length_out_of_range_witness :
  _handle_request (lit "POST") 0 Scenario.huge_length fresh_process
  = (Raise OverflowError, fresh_process).
Proof.
  apply (length_out_of_range (lit "POST") 0 Scenario.huge_length fresh_process
                             100000000000000000000).
  - reflexivity.
  - reflexivity.
Defined.
